(** * The Rancher host resource of the Terraform provider

    A shallow embedding of [rancher/resource_rancher_host.go]: the four
    lifecycle operations of the host resource (create, read, update,
    delete), the two refresh closures they poll with, and the resource
    schema.

    Go values are modelled as follows.
    - A Go [error] is the string it prints; [fmt.Errorf] with [%s] is
      string concatenation.
    - A function returning several values returns a tuple; a function of
      type [func(...) error] is a computation of type [M unit] whose
      outcome [Err e] is the returned non-nil error.
    - A nil pointer dereference or a failed type assertion is the outcome
      [Panic].
    - A Go map is a reference: a map-typed variable or field holds a
      [mapref] into the store [st_maps], so two names of one map see each
      other's writes.
    - The remote platform is a value of an arbitrary type [W]; every call
      of the remote client threads it, and appends what it did to the
      effect log [st_log].
    - The local state holds the labels as strings: [d.Set] stores a nil
      label as the empty string and refuses a label of any other type,
      returning an error. *)

From stdpp Require Import gmap strings list.

(** ** Values *)

Definition error := string.

(** The values a label can hold ([interface{}] in Go): the nil interface,
    a string, or a value of any other type (a number, a boolean, a list,
    an object), kept as the JSON text it was decoded from. *)
Inductive value :=
| VNil
| VStr (s : string)
| VRaw (json : string).

Global Instance value_eq_dec : EqDecision value.
Proof. solve_decision. Defined.

Abbreviation labelmap := (gmap string value).

(** Go's index expression [m[k]]: the zero value of the element type when
    the key is absent (also on a nil map). *)
Definition index (m : labelmap) (k : string) : value := default VNil (m !! k).

(** [rancher.Host], restricted to the fields the resource uses. The type
    [L] of the [Labels] field is [labelmap] on the wire and [mapref] once
    decoded into a Go value. *)
Record Host (L : Type) := mkHost {
  Id : string;
  Name : string;
  Description : string;
  Hostname : string;
  State : string;
  Labels : L
}.
Arguments mkHost {L}.
Arguments Id {L}.
Arguments Name {L}.
Arguments Description {L}.
Arguments Hostname {L}.
Arguments State {L}.
Arguments Labels {L}.

Abbreviation mapref := nat.

(** The body of the update request: [data] of [resourceRancherHostUpdate]
    as it is serialised when the call is made. *)
Record HostUpdate := mkHostUpdate {
  upd_name : string;
  upd_description : string;
  upd_labels : labelmap
}.

(** ** Local state of the resource ([schema.ResourceData]) *)

Record ResourceData := mkRD {
  rd_id : string;
  rd_name : string;
  rd_description : string;
  rd_environment_id : string;
  rd_hostname : string;
  rd_labels : labelmap
}.

(** [d.Get(key).(string)] for the string attributes of the schema. *)
Definition rd_get (key : string) (r : ResourceData) : string :=
  if decide (key = "id") then rd_id r
  else if decide (key = "name") then rd_name r
  else if decide (key = "description") then rd_description r
  else if decide (key = "environment_id") then rd_environment_id r
  else if decide (key = "hostname") then rd_hostname r
  else "".

(** [d.Set(key, v)] for the string attributes of the schema. *)
Definition rd_set (key : string) (v : string) (r : ResourceData) : ResourceData :=
  if decide (key = "name") then
    mkRD (rd_id r) v (rd_description r) (rd_environment_id r) (rd_hostname r) (rd_labels r)
  else if decide (key = "description") then
    mkRD (rd_id r) (rd_name r) v (rd_environment_id r) (rd_hostname r) (rd_labels r)
  else if decide (key = "environment_id") then
    mkRD (rd_id r) (rd_name r) (rd_description r) v (rd_hostname r) (rd_labels r)
  else if decide (key = "hostname") then
    mkRD (rd_id r) (rd_name r) (rd_description r) (rd_environment_id r) v (rd_labels r)
  else r.

Definition rd_set_id (v : string) (r : ResourceData) : ResourceData :=
  mkRD v (rd_name r) (rd_description r) (rd_environment_id r) (rd_hostname r) (rd_labels r).

Definition rd_set_labels (m : labelmap) (r : ResourceData) : ResourceData :=
  mkRD (rd_id r) (rd_name r) (rd_description r) (rd_environment_id r) (rd_hostname r) m.

(** What [d.Set] makes of one value of a map whose schema is [TypeMap]:
    the local state holds strings, so a string is stored as it is and nil
    as the empty string; a value of any other type is refused. *)
Definition as_string (v : value) : option string :=
  match v with
  | VNil => Some ""
  | VStr s => Some s
  | VRaw _ => None
  end.

(** The value read back from the local state for a stored [v]. *)
Definition as_stored (v : value) : value := VStr (default "" (as_string v)).

(** Every value of the map is one that [d.Set] stores. *)
Definition storable (m : labelmap) : Prop :=
  map_Forall (λ _ v, is_Some (as_string v)) m.

Global Instance storable_dec (m : labelmap) : Decision (storable m).
Proof. unfold storable. apply _. Defined.

(** The entries [d.Set] has written when it walks the keys of [m] in the
    order [keys]: it stops at the first value it refuses. *)
Fixpoint written (m : labelmap) (keys : list string) : list (string * value) :=
  match keys with
  | [] => []
  | k :: keys' =>
    match m !! k with
    | None => written m keys'
    | Some v =>
      match as_string v with
      | Some s => (k, VStr s) :: written m keys'
      | None => []
      end
    end
  end.

(** The error of a [d.Set] that refused a value. No caller in
    [resource_rancher_host.go] looks at it. *)
Definition SetError : error := "labels: expected type 'string'".

(** ** The effect log *)

(** One entry per call of the remote client, with what the call returned,
    and one entry per write to the local state. *)
Inductive event :=
| EvList (err : option error)
| EvById (id : string) (state : option string) (err : option error)
| EvUpdate (type : string) (id : string) (data : HostUpdate) (err : option error)
| EvDeactivate (id : string) (err : option error)
| EvDelete (id : string) (err : option error)
| EvSetId (v : string)
| EvSet (key : string).

(** The error a remote call returned, when it did. *)
Definition event_err (ev : event) : option error :=
  match ev with
  | EvList err => err
  | EvById _ _ err => err
  | EvUpdate _ _ _ err => err
  | EvDeactivate _ err => err
  | EvDelete _ err => err
  | EvSetId _ | EvSet _ => None
  end.

Definition is_list (ev : event) : bool :=
  match ev with EvList _ => true | _ => false end.

(** ** Outcomes *)

Inductive outcome (A : Type) :=
| Ok (a : A)
| Err (e : error)
| Panic.
Arguments Ok {A}.
Arguments Err {A}.
Arguments Panic {A}.

(** ** The schema *)

Inductive ValueType := TypeString | TypeMap.

Record Schema := mkSchema {
  Type_ : ValueType;
  Required : bool;
  Optional : bool;
  Computed : bool
}.

(** The [Schema] field of [resourceRancherHost]. *)
Definition resourceRancherHost_Schema : gmap string Schema :=
  list_to_map [
    ("id", mkSchema TypeString false false true);
    ("name", mkSchema TypeString true false false);
    ("description", mkSchema TypeString false true false);
    ("environment_id", mkSchema TypeString true false false);
    ("hostname", mkSchema TypeString true false false);
    ("labels", mkSchema TypeMap false true false)
  ].

(** ro_labels are used internally by Rancher. *)
Definition roLabels : list string := [
  "io.rancher.host.agent_image";
  "io.rancher.host.docker_version";
  "io.rancher.host.kvm";
  "io.rancher.host.linux_kernel_version"
].

(** [time.Duration] in nanoseconds. *)
Definition Millisecond : Z := 1000000.
Definition Second : Z := 1000 * Millisecond.
Definition Minute : Z := 60 * Second.

(** ** The remote client, the store and the monad *)

Section Provider.

(** The state of the remote platform. *)
Context {W : Type}.

(** [rancher.RancherClient], as far as the resource calls it. Each call
    takes the state of the platform and returns what the Go method
    returns, with the labels still on the wire. [Host_List] returns the
    [*HostCollection] (its [Data]) and the error; [Host_ById] the [*Host]
    and the error. The action and delete calls are addressed by the id of
    the resource they are given. *)
Record RancherClient := mkClient {
  Host_List : W → (option (list (Host labelmap)) * option error) * W;
  Host_ById : string → W → (option (Host labelmap) * option error) * W;
  Host_ActionDeactivate : string → W → option error * W;
  Host_Delete : string → W → option error * W;
  Update : string → string → HostUpdate → W → option error * W
}.

(** [*Config], the [meta] argument of every operation. Its method
    [EnvironmentClient] is declared outside [resource_rancher_host.go]; it
    is taken as given: it returns a client or an error. *)
Record Config := mkConfig {
  EnvironmentClient : string → RancherClient + error
}.

(** [removed] is declared outside [resource_rancher_host.go]; the
    operations take it as a parameter. *)
Variable removed : string → bool.

(** How many refreshes a [WaitForState] with the given [Timeout] gets
    through before the timeout fires. *)
Variable budget : Z → nat.

(** The order in which a [range] over a map visits its keys, which Go
    leaves unspecified. *)
Variable range_order : labelmap → list string.

Record St := mkSt {
  st_d : ResourceData;
  st_remote : W;
  st_maps : list labelmap;
  st_log : list event
}.

Definition M (A : Type) : Type := St → outcome A * St.

Definition ret {A} (a : A) : M A := fun st => (Ok a, st).

Definition bind {A B} (m : M A) (f : A → M B) : M B :=
  fun st =>
    match m st with
    | (Ok a, st') => f a st'
    | (Err e, st') => (Err e, st')
    | (Panic, st') => (Panic, st')
    end.

(** [return err] *)
Definition fail {A} (e : error) : M A := fun st => (Err e, st).

Definition panic {A} : M A := fun st => (Panic, st).

Notation "'let*' p := m 'in' f" := (bind m (fun p => f))
  (at level 10, p pattern, m at level 100, f at level 200).
Notation "m ;; f" := (bind m (fun _ => f))
  (at level 100, right associativity).

(** [for _, x := range xs { body }] *)
Fixpoint for_each {A} (xs : list A) (body : A → M unit) : M unit :=
  match xs with
  | [] => ret tt
  | x :: xs' => body x ;; for_each xs' body
  end.

(** [p.f] on a pointer [p]: a nil pointer panics. *)
Definition deref {A} (p : option A) : M A :=
  match p with
  | Some a => ret a
  | None => panic
  end.

Definition emit (ev : event) : M unit :=
  fun st => (Ok tt, mkSt (st_d st) (st_remote st) (st_maps st) (st_log st ++ [ev])).

(** *** Maps in the store *)

(** A new map holding [m]. *)
Definition map_new (m : labelmap) : M mapref :=
  fun st => (Ok (length (st_maps st)),
             mkSt (st_d st) (st_remote st) (st_maps st ++ [m]) (st_log st)).

(** The content of the map behind [r]. *)
Definition map_load (r : mapref) : M labelmap :=
  fun st => (Ok (default ∅ (st_maps st !! r)), st).

(** [m[k]] *)
Definition map_index (r : mapref) (k : string) : M value :=
  let* m := map_load r in ret (index m k).

(** [m[k] = v] *)
Definition map_assign (r : mapref) (k : string) (v : value) : M unit :=
  fun st => (Ok tt,
             mkSt (st_d st) (st_remote st) (alter (insert k v) r (st_maps st)) (st_log st)).

(** [delete(m, k)] *)
Definition map_delete (r : mapref) (k : string) : M unit :=
  fun st => (Ok tt,
             mkSt (st_d st) (st_remote st) (alter (delete k) r (st_maps st)) (st_log st)).

(** *** The local state *)

(** [d.Id()] *)
Definition d_Id : M string := fun st => (Ok (rd_id (st_d st)), st).

(** [d.SetId(v)] *)
Definition d_SetId (v : string) : M unit :=
  fun st => (Ok tt,
             mkSt (rd_set_id v (st_d st)) (st_remote st) (st_maps st)
                  (st_log st ++ [EvSetId v])).

(** [d.Get(key).(string)] *)
Definition d_Get (key : string) : M string :=
  fun st => (Ok (rd_get key (st_d st)), st).

(** [d.Set(key, v)] for a string *)
Definition d_Set (key : string) (v : string) : M unit :=
  fun st => (Ok tt,
             mkSt (rd_set key v (st_d st)) (st_remote st) (st_maps st)
                  (st_log st ++ [EvSet key])).

(** [d.Get("labels").(map[string]interface{})]: a map of its own, built
    from the stored labels. *)
Definition d_Get_labels : M mapref :=
  fun st => map_new (rd_labels (st_d st)) st.

(** The labels of the local state after [d.Set("labels", m)], and the
    error it returns. When every value of [m] is a string or nil, the
    labels are those of [m], nil stored as the empty string. Otherwise
    [d.Set] fails: it has dropped what it held for the labels and written
    the entries it came to, in the order of its [range] over [m], before
    the value it refused; when it has written none, the labels read from
    the local state are the ones from before, [old]. *)
Definition stored_labels (old m : labelmap) : labelmap * option error :=
  if decide (storable m) then (as_stored <$> m, None)
  else
    (match written m (range_order m) with
     | [] => old
     | entries => list_to_map entries
     end,
     Some SetError).

(** [d.Set("labels", m)] *)
Definition d_Set_labels (r : mapref) : M (option error) :=
  fun st =>
    let res := stored_labels (rd_labels (st_d st)) (default ∅ (st_maps st !! r)) in
    (Ok res.2,
     mkSt (rd_set_labels res.1 (st_d st))
          (st_remote st) (st_maps st) (st_log st ++ [EvSet "labels"])).

(** *** Calls of the remote client *)

(** Decoding a host received from the platform: its labels become a map of
    its own in the store. *)
Definition decode (h : Host labelmap) : M (Host mapref) :=
  let* r := map_new (Labels h) in
  ret (mkHost (Id h) (Name h) (Description h) (Hostname h) (State h) r).

Fixpoint decode_all (hs : list (Host labelmap)) : M (list (Host mapref)) :=
  match hs with
  | [] => ret []
  | h :: hs' => let* h' := decode h in let* hs'' := decode_all hs' in ret (h' :: hs'')
  end.

(** Running a call of the client on the platform. *)
Definition remote_call {A} (f : W → A * W) : M A :=
  fun st =>
    let '(a, w) := f (st_remote st) in
    (Ok a, mkSt (st_d st) w (st_maps st) (st_log st)).

(** [client.Host.List(NewListOpts())] *)
Definition client_Host_List (client : RancherClient)
  : M (option (list (Host mapref)) * option error) :=
  let* (hosts, err) := remote_call (Host_List client) in
  emit (EvList err) ;;
  match hosts with
  | None => ret (None, err)
  | Some data => let* data' := decode_all data in ret (Some data', err)
  end.

(** [client.Host.ById(id)] *)
Definition client_Host_ById (client : RancherClient) (id : string)
  : M (option (Host mapref) * option error) :=
  let* (host, err) := remote_call (Host_ById client id) in
  emit (EvById id (State <$> host) err) ;;
  match host with
  | None => ret (None, err)
  | Some h => let* h' := decode h in ret (Some h', err)
  end.

(** [client.Host.ActionDeactivate(host)]; the host it returns is dropped
    by its only caller. *)
Definition client_Host_ActionDeactivate (client : RancherClient)
    (host : option (Host mapref)) : M (option error) :=
  let* h := deref host in
  let* err := remote_call (Host_ActionDeactivate client (Id h)) in
  emit (EvDeactivate (Id h) err) ;;
  ret err.

(** [client.Host.Delete(host)] *)
Definition client_Host_Delete (client : RancherClient)
    (host : option (Host mapref)) : M (option error) :=
  let* h := deref host in
  let* err := remote_call (Host_Delete client (Id h)) in
  emit (EvDelete (Id h) err) ;;
  ret err.

(** [client.Update(type, &host.Resource, data, &newHost)]; [data] holds
    pointers to [name], [description] and [labels], read when the request
    is built. *)
Definition client_Update (client : RancherClient) (type : string)
    (id : string) (name description : string) (labels : mapref) : M (option error) :=
  let* m := map_load labels in
  let data := mkHostUpdate name description m in
  let* err := remote_call (Update client type id data) in
  emit (EvUpdate type id data err) ;;
  ret err.

(** ** Polling *)

(** [resource.StateRefreshFunc]: the result, the state and the error. *)
Definition StateRefreshFunc : Type :=
  M (option (Host mapref) * string * option error).

(** [resource.StateChangeConf] *)
Record StateChangeConf := mkConf {
  Pending : list string;
  Target : list string;
  Refresh : StateRefreshFunc;
  Timeout : Z;
  Delay : Z;
  MinTimeout : Z;
  NotFoundChecks : nat
}.

(** The failures of the poll loop, as the strings they print. *)
Definition TimeoutError (conf : StateChangeConf) : error :=
  "timeout while waiting for state to become '" +:+
  String.concat ", " (Target conf) +:+ "'".

Definition NotFoundError : error := "couldn't find resource".

Definition UnexpectedStateError (state : string) (conf : StateChangeConf) : error :=
  "unexpected state '" +:+ state +:+ "', wanted target '" +:+
  String.concat ", " (Target conf) +:+ "'".

(** Modelled from the spec: the poll loop [WaitForState] of
    [resource.StateChangeConf] belongs to the plugin SDK and is not part
    of [resource_rancher_host.go]. The spec describes it as a caller-driven poll loop with
    a hard timeout and bounded not-found retries, which ends successfully
    on a status of the target set and treats the statuses of the pending
    set as transient. The loop below refreshes at most [polls] times, the
    number of refreshes the timeout leaves room for; a refresh that
    returns an error ends it with that error; a refresh with no result
    counts as a not-found observation, and more than [checks] of them in
    a row end it; a result in a target state ends it successfully with
    that result; a result in a pending state lets it go on, and a result
    in any other state ends it with a failure. The waits between two
    refreshes ([Delay], [MinTimeout]) only take time. *)
Fixpoint refresh_loop (conf : StateChangeConf) (checks : nat)
    (polls : nat) (notfoundTick : nat)
  : M (option (Host mapref) * option error) :=
  match polls with
  | 0 => ret (None, Some (TimeoutError conf))
  | S polls' =>
    let* (res, currentState, err) := Refresh conf in
    match err with
    | Some e => ret (None, Some e)
    | None =>
      match res with
      | None =>
        if decide (length (Target conf) = 0) then ret (None, None)
        else
          let notfoundTick := S notfoundTick in
          if decide (checks < notfoundTick) then ret (None, Some NotFoundError)
          else refresh_loop conf checks polls' notfoundTick
      | Some r =>
        if decide (currentState ∈ Target conf) then ret (Some r, None)
        else if decide (currentState ∈ Pending conf) then
          refresh_loop conf checks polls' 0
        else ret (None, Some (UnexpectedStateError currentState conf))
      end
    end
  end.

(** Modelled from the spec: [conf.WaitForState()]; see [refresh_loop]. A
    [NotFoundChecks] left at zero stands for the SDK's default of 20. *)
Definition WaitForState (conf : StateChangeConf)
  : M (option (Host mapref) * option error) :=
  let checks := if decide (NotFoundChecks conf = 0) then 20 else NotFoundChecks conf in
  refresh_loop conf checks (budget (Timeout conf)) 0.

(** ** The resource *)

(** The loop of [findHost] over [hosts.Data]: the first host with the
    hostname. *)
Fixpoint findHost_range (hostname : string) (data : list (Host mapref))
  : option (Host mapref) :=
  match data with
  | [] => None
  | h :: data' =>
    if decide (Hostname h = hostname) then Some h
    else findHost_range hostname data'
  end.

Definition findHost (client : RancherClient) (hostname : string) : StateRefreshFunc :=
  let* (hosts, _) := client_Host_List client in
  let* data := deref hosts in
  match findHost_range hostname data with
  | Some host => ret (Some host, State host, None)
  | None => ret (None, "not found", None)
  end.

(** HostStateRefreshFunc returns a resource.StateRefreshFunc that is used
    to watch a Rancher Host. *)
Definition HostStateRefreshFunc (client : RancherClient) (hostID : string)
  : StateRefreshFunc :=
  let* (host, err) := client_Host_ById client hostID in
  match err with
  | Some e => ret (None, "", Some e)
  | None =>
    let* h := deref host in
    ret (host, State h, None)
  end.

Definition resourceRancherHostRead (meta : Config) : M unit :=
  let* env := d_Get "environment_id" in
  match EnvironmentClient meta env with
  | inr err => fail err
  | inl client =>
    let* id := d_Id in
    let* (host, err) := client_Host_ById client id in
    match err with
    | Some e => fail e
    | None =>
      match host with
      | None => d_SetId "" ;; ret tt
      | Some h =>
        if removed (State h) then d_SetId "" ;; ret tt
        else
          d_Set "description" (Description h) ;;
          d_Set "name" (Name h) ;;
          d_Set "hostname" (Hostname h) ;;
          let labels := Labels h in
          (* Remove read-only labels *)
          for_each roLabels (fun lbl => map_delete labels lbl) ;;
          (* the error of this d.Set is not looked at *)
          d_Set_labels (Labels h) ;;
          ret tt
      end
    end
  end.

Definition resourceRancherHostUpdate (meta : Config) : M unit :=
  let* env := d_Get "environment_id" in
  match EnvironmentClient meta env with
  | inr err => fail err
  | inl client =>
    let* name := d_Get "name" in
    let* description := d_Get "description" in
    (* Process labels: merge ro_labels into new labels *)
    let* labels := d_Get_labels in
    let* id := d_Id in
    let* (host, err) := client_Host_ById client id in
    match err with
    | Some e => fail e
    | None =>
      for_each roLabels (fun lbl =>
        let* h := deref host in
        let* v := map_index (Labels h) lbl in
        map_assign labels lbl v) ;;
      let* h := deref host in
      let* err := client_Update client "host" (Id h) name description labels in
      match err with
      | Some e => fail e
      | None => resourceRancherHostRead meta
      end
    end
  end.

(** The [stateConf] of [resourceRancherHostCreate]. *)
Definition Create_stateConf (client : RancherClient) (hostname : string)
  : StateChangeConf :=
  {| Pending := ["active"; "removed"; "removing"; "not found"; "registering"; "activating"];
     Target := ["active"; "disconnected"];
     Refresh := findHost client hostname;
     Timeout := 10 * Minute;
     Delay := 1 * Second;
     MinTimeout := 3 * Second;
     NotFoundChecks := 50 |}.

Definition resourceRancherHostCreate (meta : Config) : M unit :=
  let* env := d_Get "environment_id" in
  match EnvironmentClient meta env with
  | inr err => fail err
  | inl client =>
    let* hostname := d_Get "hostname" in
    let stateConf := Create_stateConf client hostname in
    let* (host, waitErr) := WaitForState stateConf in
    match waitErr with
    | Some e =>
      fail ("Error waiting for host (" +:+ hostname +:+ ") to be found: " +:+ e)
    | None =>
      let* h := deref host in
      d_SetId (Id h) ;;
      resourceRancherHostUpdate meta
    end
  end.

(** The first [stateConf] of [resourceRancherHostDelete]: waiting for the
    host to be deactivated. *)
Definition Delete_stateConf_inactive (client : RancherClient) (id : string)
  : StateChangeConf :=
  {| Pending := ["active"; "inactive"; "deactivating"];
     Target := ["inactive"];
     Refresh := HostStateRefreshFunc client id;
     Timeout := 10 * Minute;
     Delay := 1 * Second;
     MinTimeout := 3 * Second;
     NotFoundChecks := 0 |}.

(** The second [stateConf] of [resourceRancherHostDelete]: waiting for the
    host to be removed. *)
Definition Delete_stateConf_removed (client : RancherClient) (id : string)
  : StateChangeConf :=
  {| Pending := ["inactive"; "removed"; "removing"];
     Target := ["removed"];
     Refresh := HostStateRefreshFunc client id;
     Timeout := 10 * Minute;
     Delay := 1 * Second;
     MinTimeout := 3 * Second;
     NotFoundChecks := 0 |}.

(** The rest of [resourceRancherHostDelete] once the host is inactive:
    the delete call, the wait for removal, and the clearing of the id. *)
Definition Delete_remove (client : RancherClient) (id : string)
    (host : option (Host mapref)) : M unit :=
  let* err := client_Host_Delete client host in
  match err with
  | Some e => fail ("Error deleting Host: " +:+ e)
  | None =>
    let stateConf := Delete_stateConf_removed client id in
    let* (_, waitErr) := WaitForState stateConf in
    match waitErr with
    | Some e =>
      fail ("Error waiting for host (" +:+ id +:+ ") to be removed: " +:+ e)
    | None => d_SetId "" ;; ret tt
    end
  end.

Definition resourceRancherHostDelete (meta : Config) : M unit :=
  let* id := d_Id in
  let* env := d_Get "environment_id" in
  match EnvironmentClient meta env with
  | inr err => fail err
  | inl client =>
    let* (host, err) := client_Host_ById client id in
    match err with
    | Some e => fail e
    | None =>
      let* h := deref host in
      if decide (State h ≠ "inactive") then
        let* err := client_Host_ActionDeactivate client host in
        match err with
        | Some e => fail ("Error deactivating Host: " +:+ e)
        | None =>
          let stateConf := Delete_stateConf_inactive client id in
          let* (_, waitErr) := WaitForState stateConf in
          match waitErr with
          | Some e =>
            fail ("Error waiting for host (" +:+ id +:+ ") to be removed: " +:+ e)
          | None => Delete_remove client id host
          end
        end
      else Delete_remove client id host
    end
  end.

(** [schema.Resource] *)
Record Resource := mkResource {
  Create : Config → M unit;
  Read : Config → M unit;
  Update_ : Config → M unit;
  Delete : Config → M unit;
  Schema_ : gmap string Schema
}.

Definition resourceRancherHost : Resource :=
  {| Create := resourceRancherHostCreate;
     Read := resourceRancherHostRead;
     Update_ := resourceRancherHostUpdate;
     Delete := resourceRancherHostDelete;
     Schema_ := resourceRancherHost_Schema |}.

End Provider.

(** ** A scripted platform *)

(** A platform that answers the fetches by id and the list calls from two
    scripts, one entry per call, and every other call with a fixed answer.
    Once a script is used up, a fetch finds no record and a list call
    finds no host. It is what the examples below run the operations on. *)
Record script := mkScript {
  by_id : list (option (Host labelmap) * option error);
  listing : list (option (list (Host labelmap)) * option error)
}.

Definition scripted (deactivate_err delete_err update_err : option error)
  : @RancherClient script :=
  {| Host_List := fun w =>
       match listing w with
       | [] => ((Some [], None), w)
       | answer :: rest => (answer, mkScript (by_id w) rest)
       end;
     Host_ById := fun _ w =>
       match by_id w with
       | [] => ((None, None), w)
       | answer :: rest => (answer, mkScript rest (listing w))
       end;
     Host_ActionDeactivate := fun _ w => (deactivate_err, w);
     Host_Delete := fun _ w => (delete_err, w);
     Update := fun _ _ _ w => (update_err, w) |}.

Definition scripted_config (client : @RancherClient script) : Config :=
  {| EnvironmentClient := fun _ => inl client |}.

(** A platform on which every call succeeds. *)
Definition obliging : Config := scripted_config (scripted None None None).

(** A platform that refuses to deactivate a host. *)
Definition refusing : Config := scripted_config (scripted (Some "denied") None None).

(** Modelled from the spec: [removed] is declared outside
    [resource_rancher_host.go]; the spec speaks of a record whose state is
    removed. *)
Definition removed_state (state : string) : bool :=
  bool_decide (state = "removed").

(** A host as the platform serves it, with two reserved labels and one of
    the user's. *)
Definition web1 (state : string) : Host labelmap :=
  {| Id := "1h5"; Name := "web"; Description := "front"; Hostname := "web1";
     State := state;
     Labels := <["io.rancher.host.kvm" := VStr "true"]>
               (<["io.rancher.host.docker_version" := VStr "1.12"]>
               (<["role" := VStr "web"]> ∅)) |}.

(** The local state of a host resource that was created for [web1]. *)
Definition web1_data : ResourceData :=
  {| rd_id := "1h5"; rd_name := "web"; rd_description := "front";
     rd_environment_id := "1a5"; rd_hostname := "web1";
     rd_labels := <["io.rancher.host.kvm" := VStr "false"]> (<["role" := VStr "db"]> ∅) |}.

(** The state an operation starts in, given what the platform will answer
    to the fetches by id and to the list calls. *)
Definition start (fetches : list (option (Host labelmap) * option error))
    (lists : list (option (list (Host labelmap)) * option error)) : @St script :=
  {| st_d := web1_data; st_remote := mkScript fetches lists;
     st_maps := []; st_log := [] |}.

(** The timeout leaves room for two hundred refreshes. *)
Definition two_hundred : Z → nat := fun _ => 200.

(** A range order: the keys in the order in which the map lists them. *)
Definition key_order : labelmap → list string := fun m => (map_to_list m).*1.

(** [web1] with a label that is a number. *)
Definition web1_cpus (state : string) : Host labelmap :=
  {| Id := "1h5"; Name := "web"; Description := "front"; Hostname := "web1";
     State := state;
     Labels := <["io.rancher.host.kvm" := VStr "true"]>
               (<["cpus" := VRaw "4"]> ∅) |}.

(** [web1] with a label that is null. *)
Definition web1_null (state : string) : Host labelmap :=
  {| Id := "1h5"; Name := "web"; Description := "front"; Hostname := "web1";
     State := state;
     Labels := <["io.rancher.host.kvm" := VStr "true"]>
               (<["rack" := VNil]> ∅) |}.

(** The answer of a fetch that finds [web1] in the given state. *)
Definition seen (state : string) : option (Host labelmap) * option error :=
  (Some (web1 state), None).

(** A first list call that fails, and a second that finds [web1] active. *)
Definition flaky_listing : list (option (list (Host labelmap)) * option error) :=
  [(Some [], Some "connection refused"); (Some [web1 "active"], None)].

(** A first list call that finds no host, and a second that finds [web1]
    active. *)
Definition quiet_then_found : @St script :=
  start [] [(Some [], None); (Some [web1 "active"], None)].

(** A host that is removing when fetched first, and removed when fetched
    again. *)
Definition being_removed : @St script :=
  start [seen "removing"; seen "removed"] [].

(** ** Properties the claims are stated with *)

Section Properties.

Context {W : Type}.
Variable removed : string → bool.

(** The record fetched by the id of the local state is missing, or its
    state is removed. *)
Definition missing_or_removed (client : @RancherClient W) (st : St) : Prop :=
  match Host_ById client (rd_id (st_d st)) (st_remote st) with
  | (None, None, _) => True
  | (Some h, None, _) => removed (State h) = true
  | (_, Some _, _) => False
  end.

(** The operation returns success and leaves the stored id empty. *)
Definition succeeds_clearing_identity (op : @M W unit) (st : St) : Prop :=
  (op st).1 = Ok tt ∧ rd_id (st_d (op st).2) = "".

(** Whenever a fetch by id returns no error, it returns a record. *)
Definition fetch_returns_record (client : @RancherClient W) : Prop :=
  ∀ id w, (Host_ById client id w).1 ≠ (None, None).

(** [k] refreshes in a row, starting in [st] and ending in [st'], each of
    which finds nothing. *)
Inductive not_found_run (refresh : @StateRefreshFunc W) : nat → St → St → Prop :=
| not_found_run_0 st : not_found_run refresh 0 st st
| not_found_run_S k st st' st'' :
    refresh st = (Ok (None, "not found", None), st') →
    not_found_run refresh k st' st'' →
    not_found_run refresh (S k) st st''.

(** [k] refreshes in a row, starting in [st] and ending in [st'], each of
    which finds the host in a state that is pending and not a target. *)
Inductive pending_run (conf : @StateChangeConf W) : nat → St → St → Prop :=
| pending_run_0 st : pending_run conf 0 st st
| pending_run_S k st h s st' st'' :
    Refresh conf st = (Ok (Some h, s, None), st') →
    s ∈ Pending conf → s ∉ Target conf →
    pending_run conf k st' st'' →
    pending_run conf (S k) st st''.

(** Every error of a remote call in the trace [tr], the list call apart,
    is the error the operation returned, as it is or behind a prefix. *)
Definition errors_reported (r : outcome unit) (tr : list event) : Prop :=
  ∀ ev e, ev ∈ tr → is_list ev = false → event_err ev = Some e →
    ∃ pre, r = Err (pre +:+ e).

(** An operation reports the errors of the remote calls it makes: its log
    grows by a trace whose errors, the list call apart, are the error it
    returns. *)
Definition reports_errors (op : @M W unit) : Prop :=
  ∀ st, ∃ tr,
    st_log (op st).2 = st_log st ++ tr ∧ errors_reported (op st).1 tr.

(** The platform after [n] list calls in a row. *)
Fixpoint after_lists (client : @RancherClient W) (n : nat) (w : W) : W :=
  match n with
  | 0 => w
  | S n' => after_lists client n' (Host_List client w).2
  end.

(** The entries of the log for [n] list calls in a row, the first of them
    made on the platform [w]. *)
Fixpoint list_calls (client : @RancherClient W) (n : nat) (w : W) : list event :=
  match n with
  | 0 => []
  | S n' =>
    EvList (Host_List client w).1.2 :: list_calls client n' (Host_List client w).2
  end.

(** The maps that decoding the answers to [n] list calls in a row adds to
    the store: the labels of every host listed. *)
Fixpoint list_maps (client : @RancherClient W) (n : nat) (w : W) : list labelmap :=
  match n with
  | 0 => []
  | S n' =>
    match (Host_List client w).1.1 with
    | Some data => Labels <$> data
    | None => []
    end ++ list_maps client n' (Host_List client w).2
  end.

(** The state a run of [n] list calls in a row ends in: the platform has
    answered them, the store holds the labels of the hosts listed, and the
    log has one entry for each call. *)
Definition listed_state (client : @RancherClient W) (n : nat) (st : @St W) : St :=
  mkSt (st_d st) (after_lists client n (st_remote st))
       (st_maps st ++ list_maps client n (st_remote st))
       (st_log st ++ list_calls client n (st_remote st)).

(** A list call made on the platform [w] returns hosts, and the first of
    them with the hostname has the id [id] and the state [state]. *)
Definition first_listed (client : @RancherClient W) (hostname : string) (w : W)
    (id state : string) : Prop :=
  ∃ pre hw post err w',
    Host_List client w = (Some (pre ++ hw :: post), err, w')
    ∧ Forall (λ x, Hostname x ≠ hostname) pre
    ∧ Hostname hw = hostname ∧ Id hw = id ∧ State hw = state.


(** The entries of the log for a series of fetches by id that saw the
    states [states]. *)
Definition fetches (id : string) (states : list string) : list event :=
  (λ s, EvById id (Some s) None) <$> states.

(** How a poll by id ends: the outcome of [WaitForState], and the entry of
    the log for the refresh that ended it. *)
Inductive by_id_end (conf : @StateChangeConf W) (id : string)
  : outcome (option (Host mapref) * option error) → list event → Prop :=
| by_id_timeout :
    by_id_end conf id (Ok (None, Some (TimeoutError conf))) []
| by_id_target h :
    State h ∈ Target conf →
    by_id_end conf id (Ok (Some h, None)) [EvById id (Some (State h)) None]
| by_id_unexpected s :
    s ∉ Target conf → s ∉ Pending conf →
    by_id_end conf id (Ok (None, Some (UnexpectedStateError s conf)))
      [EvById id (Some s) None]
| by_id_error o e :
    by_id_end conf id (Ok (None, Some e)) [EvById id o (Some e)]
| by_id_panic :
    by_id_end conf id Panic [EvById id None None].


End Properties.

(** ** Properties of the calls an operation makes *)

(** The entries of the log that are calls of the remote client. *)
Definition is_call (ev : event) : bool :=
  match ev with
  | EvSetId _ | EvSet _ => false
  | _ => true
  end.

(** The calls that change the platform: update, deactivate and delete. *)
Definition is_mutation (ev : event) : bool :=
  match ev with
  | EvUpdate _ _ _ _ | EvDeactivate _ _ | EvDelete _ _ => true
  | _ => false
  end.

Definition calls (tr : list event) : list event := List.filter is_call tr.

Definition mutations (tr : list event) : list event := List.filter is_mutation tr.

(** No reserved key is bound in the labels. *)
Definition reserved_free (m : labelmap) : Prop :=
  ∀ k, k ∈ roLabels → m !! k = None.

(** What the loop of read makes of the labels of a record. *)
Definition without_reserved (m : labelmap) : labelmap :=
  foldl (λ m lbl, delete lbl m) m roLabels.

(** What the loop of update makes of the local labels, given the labels of
    the record. *)
Definition with_reserved (user remote : labelmap) : labelmap :=
  foldl (λ m lbl, <[lbl := index remote lbl]> m) user roLabels.

(** ** More examples to run the operations on *)

(** A host with all four reserved labels and one of the user's. *)
Definition web2 : Host labelmap :=
  {| Id := "1h7"; Name := "db"; Description := "store"; Hostname := "web2";
     State := "active";
     Labels := <["io.rancher.host.agent_image" := VStr "rancher/agent:v1.2"]>
               (<["io.rancher.host.docker_version" := VStr "1.12"]>
               (<["io.rancher.host.kvm" := VStr "true"]>
               (<["io.rancher.host.linux_kernel_version" := VStr "4.4"]>
               (<["role" := VStr "db"]> ∅)))) |}.

(** The local state of a host resource that was created for [web2]. *)
Definition web2_data : ResourceData :=
  {| rd_id := "1h7"; rd_name := "old"; rd_description := "";
     rd_environment_id := "1a5"; rd_hostname := "web2"; rd_labels := ∅ |}.

(** A platform that serves [web2] whenever it is fetched or listed. *)
Definition serving_web2 : @St script :=
  {| st_d := web2_data;
     st_remote := mkScript [(Some web2, None); (Some web2, None); (Some web2, None)]
                           [(Some [web1 "active"; web2], None)];
     st_maps := []; st_log := [] |}.

(** * Proofs *)

Section Proofs.

Context {W : Type}.
Variable removed : string → bool.
Variable budget : Z → nat.
Variable range_order : labelmap → list string.

Implicit Types (meta : @Config W) (client : @RancherClient W) (st : @St W).
Implicit Types (conf : @StateChangeConf W).

Arguments for_each : simpl never.
Arguments deref : simpl never.
Arguments refresh_loop : simpl never.
Arguments WaitForState : simpl never.
Arguments findHost : simpl never.
Arguments HostStateRefreshFunc : simpl never.
Arguments client_Host_ById : simpl never.
Arguments client_Host_List : simpl never.
Arguments client_Host_ActionDeactivate : simpl never.
Arguments client_Host_Delete : simpl never.
Arguments client_Update : simpl never.
Arguments resourceRancherHostRead : simpl never.
Arguments resourceRancherHostUpdate : simpl never.
Arguments Delete_remove : simpl never.
Arguments stored_labels : simpl never.

(** ** The store *)

(** The last map of the store, and the one before. *)
Lemma alter_snoc {A} (f : A → A) (l : list A) (x : A) :
  alter f (length l) (l ++ [x]) = l ++ [f x].
Proof. by rewrite <- (Nat.add_0_r (length l)), alter_app_r. Qed.

Lemma lookup_snoc {A} (l : list A) (x : A) : (l ++ [x]) !! length l = Some x.
Proof. by apply list_lookup_middle. Qed.

Lemma alter_snoc_l {A} (f : A → A) (l : list A) (x y : A) :
  alter f (length l) ((l ++ [x]) ++ [y]) = (l ++ [f x]) ++ [y].
Proof.
  rewrite alter_app_l; [by rewrite alter_snoc |].
  rewrite length_app. simpl. lia.
Qed.

Lemma lookup_snoc_l {A} (l : list A) (x y : A) :
  ((l ++ [x]) ++ [y]) !! length l = Some x.
Proof.
  rewrite lookup_app_l; [apply lookup_snoc |].
  rewrite length_app. simpl. lia.
Qed.

(** ** Symbolic execution

    The operations are run by rewriting with the equations of [bind] and
    of the primitives; loops and polls stay folded and are dealt with by
    lemmas of their own. *)

Lemma d_Get_environment_id st :
  d_Get "environment_id" st = (Ok (rd_environment_id (st_d st)), st).
Proof. reflexivity. Qed.

Lemma d_Get_hostname st : d_Get "hostname" st = (Ok (rd_hostname (st_d st)), st).
Proof. reflexivity. Qed.

Lemma d_Get_name st : d_Get "name" st = (Ok (rd_name (st_d st)), st).
Proof. reflexivity. Qed.

Lemma d_Get_description st :
  d_Get "description" st = (Ok (rd_description (st_d st)), st).
Proof. reflexivity. Qed.

Lemma bind_eq {A B} (m : M A) (f : A → M B) st :
  bind m f st =
    match m st with
    | (Ok a, st') => f a st'
    | (Err e, st') => (Err e, st')
    | (Panic, st') => (Panic, st')
    end.
Proof. reflexivity. Qed.

(** The fetch by id: one call, one entry in the log, and the labels of the
    record in a new map. *)
Lemma client_Host_ById_eq client id st :
  client_Host_ById client id st =
    let '(host, err, w) := Host_ById client id (st_remote st) in
    match host with
    | None =>
      (Ok (None, err),
       mkSt (st_d st) w (st_maps st) (st_log st ++ [EvById id None err]))
    | Some h =>
      (Ok (Some (mkHost (Id h) (Name h) (Description h) (Hostname h) (State h)
                        (length (st_maps st))), err),
       mkSt (st_d st) w (st_maps st ++ [Labels h])
            (st_log st ++ [EvById id (Some (State h)) err]))
    end.
Proof.
  unfold client_Host_ById, bind, remote_call.
  destruct (Host_ById client id (st_remote st)) as [[[h|] err] w]; reflexivity.
Qed.

Lemma deref_Some {A} (a : A) st : deref (Some a) st = (Ok a, st).
Proof. reflexivity. Qed.

Lemma deref_None {A} st : deref (@None A) st = (Panic, st).
Proof. reflexivity. Qed.

Ltac exec :=
  repeat first
    [ rewrite bind_eq
    | rewrite deref_Some
    | rewrite deref_None
    | rewrite d_Get_environment_id
    | rewrite d_Get_hostname
    | rewrite d_Get_name
    | rewrite d_Get_description
    | rewrite client_Host_ById_eq
    | progress cbn ].

(** The same, leaving the calls of the client folded. *)
Ltac exec0 :=
  repeat first
    [ rewrite bind_eq
    | rewrite deref_Some
    | rewrite deref_None
    | rewrite d_Get_environment_id
    | rewrite d_Get_hostname
    | rewrite d_Get_name
    | rewrite d_Get_description
    | progress cbn ].

(** ** The schema *)

(** C9. The schema has exactly the fields id, name, description,
    environment_id, hostname and labels; id is computed, hostname is
    required, and labels is a map. *)
Theorem schema_fields :
  dom resourceRancherHost_Schema
    = ({["id"; "name"; "description"; "environment_id"; "hostname"; "labels"]} : gset string)
  ∧ Computed <$> resourceRancherHost_Schema !! "id" = Some true
  ∧ Required <$> resourceRancherHost_Schema !! "hostname" = Some true
  ∧ Type_ <$> resourceRancherHost_Schema !! "labels" = Some TypeMap.
Proof. repeat split; vm_compute; reflexivity. Qed.

(** ** Read *)

(** The loop of [resourceRancherHostRead] over [roLabels]. *)
Lemma read_range (lbls : list string) (r : mapref) st :
  for_each lbls (λ lbl, map_delete r lbl) st
  = (Ok tt,
     mkSt (st_d st) (st_remote st)
          (alter (λ m, foldl (λ m lbl, delete lbl m) m lbls) r (st_maps st))
          (st_log st)).
Proof.
  revert st. induction lbls as [| lbl lbls IH]; intros st.
  - cbn. rewrite list_alter_id by done. by destruct st.
  - unfold for_each; fold (@for_each W string). unfold bind, map_delete at 1.
    rewrite IH. cbn. by rewrite list_alter_alter_eq.
Qed.

(** *** What [d.Set] stores for the labels *)

Lemma stored_labels_storable (old m : labelmap) :
  storable m → stored_labels range_order old m = (as_stored <$> m, None).
Proof. intros Hm. unfold stored_labels. by rewrite decide_True. Qed.

(** A map of strings is stored as it is. *)
Lemma stored_labels_strings (old m : labelmap) :
  (∀ k v, m !! k = Some v → ∃ s, v = VStr s) →
  stored_labels range_order old m = (m, None).
Proof.
  intros Hm. rewrite stored_labels_storable.
  - f_equal. apply map_eq. intros k. rewrite lookup_fmap.
    destruct (m !! k) as [v |] eqn:Hk; [| done].
    by destruct (Hm k v Hk) as [s ->].
  - intros k v Hk. by destruct (Hm k v Hk) as [s ->].
Qed.

Lemma written_bound (m : labelmap) (keys : list string) (k : string) (v : value) :
  (k, v) ∈ written m keys → is_Some (m !! k).
Proof.
  induction keys as [| k' keys IH]; cbn; [by intros ?%elem_of_nil |].
  destruct (m !! k') as [v' |] eqn:Hk'; [| exact IH].
  destruct (as_string v') as [s |]; [| by intros ?%elem_of_nil].
  intros [[= -> ->] | Hin]%elem_of_cons; [by eexists | auto].
Qed.

(** When no value of the map is one that [d.Set] stores, it writes no
    entry, whatever the order. *)
Lemma written_none (m : labelmap) (keys : list string) :
  (∀ k v, m !! k = Some v → as_string v = None) → written m keys = [].
Proof.
  intros Hm. induction keys as [| k keys IH]; cbn; [done |].
  destruct (m !! k) as [v |] eqn:Hk; [| exact IH]. by rewrite (Hm k v Hk).
Qed.

Lemma stored_labels_reserved_free (old m : labelmap) :
  reserved_free m →
  reserved_free (stored_labels range_order old m).1
  ∨ (stored_labels range_order old m).1 = old.
Proof.
  intros Hm. unfold stored_labels. case_decide; cbn [fst].
  - left. intros k Hk. by rewrite lookup_fmap, (Hm k Hk).
  - destruct (written m (range_order m)) as [| e entries] eqn:Hw; [by right |].
    left. intros k Hk. rewrite <- Hw. apply not_elem_of_list_to_map_1.
    intros ([k' v] & -> & Hin)%list_elem_of_fmap.
    apply written_bound in Hin as [v' Hv']. cbn in Hk. rewrite (Hm _ Hk) in Hv'.
    done.
Qed.

(** What [resourceRancherHostRead] does when the fetch returns a record
    that is not removed. *)
Lemma read_present meta client st hj w' :
  EnvironmentClient meta (rd_environment_id (st_d st)) = inl client →
  Host_ById client (rd_id (st_d st)) (st_remote st) = (Some hj, None, w') →
  removed (State hj) = false →
  resourceRancherHostRead removed range_order meta st =
    (Ok tt,
     {| st_d := {| rd_id := rd_id (st_d st);
                   rd_name := Name hj;
                   rd_description := Description hj;
                   rd_environment_id := rd_environment_id (st_d st);
                   rd_hostname := Hostname hj;
                   rd_labels :=
                     (stored_labels range_order (rd_labels (st_d st))
                        (foldl (λ m lbl, delete lbl m) (Labels hj) roLabels)).1 |};
        st_remote := w';
        st_maps := st_maps st ++ [foldl (λ m lbl, delete lbl m) (Labels hj) roLabels];
        st_log := st_log st ++
          [EvById (rd_id (st_d st)) (Some (State hj)) None;
           EvSet "description"; EvSet "name"; EvSet "hostname"; EvSet "labels"] |}).
Proof.
  intros Henv Hby Hrm.
  unfold resourceRancherHostRead, bind, d_Get.
  change (rd_get "environment_id" (st_d st)) with (rd_environment_id (st_d st)).
  rewrite Henv. unfold d_Id, client_Host_ById, bind, remote_call. cbn.
  rewrite Hby. cbn. rewrite Hrm. cbn.
  rewrite read_range. cbn.
  rewrite !alter_snoc, lookup_snoc. cbn.
  by rewrite <- !app_assoc.
Qed.

Lemma roLabels_deleted (m : labelmap) (k : string) :
  foldl (λ m lbl, delete lbl m) m roLabels !! k
  = if decide (k ∈ roLabels) then None else m !! k.
Proof.
  cbn. rewrite !lookup_delete.
  destruct (decide (k ∈ roLabels)) as [Hin | Hnin].
  - unfold roLabels in Hin. rewrite !elem_of_cons, elem_of_nil in Hin.
    destruct Hin as [-> | [-> | [-> | [-> | []]]]]; reflexivity.
  - rewrite !decide_False; [done | ..]; intros <-; apply Hnin;
      unfold roLabels; rewrite !elem_of_cons; auto.
Qed.

(** C10. A read of a host that is there writes the description, the name,
    the hostname and the labels of the local state, in this order, and
    nothing else: the id and the environment id are as before. *)
Theorem read_frame meta client st hj w' :
  EnvironmentClient meta (rd_environment_id (st_d st)) = inl client →
  Host_ById client (rd_id (st_d st)) (st_remote st) = (Some hj, None, w') →
  removed (State hj) = false →
  let st' := (resourceRancherHostRead removed range_order meta st).2 in
  st_log st' = st_log st ++
    [EvById (rd_id (st_d st)) (Some (State hj)) None;
     EvSet "description"; EvSet "name"; EvSet "hostname"; EvSet "labels"]
  ∧ rd_id (st_d st') = rd_id (st_d st)
  ∧ rd_environment_id (st_d st') = rd_environment_id (st_d st)
  ∧ rd_description (st_d st') = Description hj
  ∧ rd_name (st_d st') = Name hj
  ∧ rd_hostname (st_d st') = Hostname hj.
Proof.
  intros Henv Hby Hrm. cbv zeta.
  by rewrite (read_present _ _ _ _ _ Henv Hby Hrm).
Qed.


(** The log of a read extends the log it starts with. *)
Lemma read_log meta st :
  ∃ tr, st_log (resourceRancherHostRead removed range_order meta st).2 = st_log st ++ tr.
Proof.
  unfold resourceRancherHostRead. exec.
  destruct (EnvironmentClient meta _) as [client | e]; exec.
  2: { exists []. by rewrite app_nil_r. }
  destruct (Host_ById client _ _) as [[[h|] [e|]] w]; exec;
    try destruct (removed (State h)); exec; rewrite ?read_range; exec;
    rewrite <- ?app_assoc; eauto.
Qed.


(** ** Update *)

Lemma roLabels_merged (user remote : labelmap) (k : string) :
  foldl (λ m lbl, <[lbl := index remote lbl]> m) user roLabels !! k
  = if decide (k ∈ roLabels) then Some (index remote k) else user !! k.
Proof.
  cbn. rewrite !lookup_insert.
  destruct (decide (k ∈ roLabels)) as [Hin | Hnin].
  - unfold roLabels in Hin. rewrite !elem_of_cons, elem_of_nil in Hin.
    destruct Hin as [-> | [-> | [-> | [-> | []]]]]; reflexivity.
  - rewrite !decide_False; [done | ..]; intros <-; apply Hnin;
      unfold roLabels; rewrite !elem_of_cons; auto.
Qed.

(** The loop of [resourceRancherHostUpdate] over [roLabels], run on a
    store whose last two maps are the labels of the local state and the
    labels of the fetched record. *)
Lemma update_range (h : Host mapref) (lbls : list string) d w
    (maps : list labelmap) (user remote : labelmap) (log : list event) :
  Labels h = length maps + 1 →
  for_each lbls (λ lbl,
      bind (deref (Some h)) (λ h,
      bind (map_index (Labels h) lbl) (λ v,
      map_assign (length maps) lbl v)))
    (mkSt d w ((maps ++ [user]) ++ [remote]) log : @St W)
  = (Ok tt,
     mkSt d w
       ((maps ++ [foldl (λ m lbl, <[lbl := index remote lbl]> m) user lbls]) ++ [remote])
       log).
Proof.
  intros Hr. revert user. induction lbls as [| lbl lbls IH]; intros user; [done |].
  unfold for_each; fold (@for_each W string). rewrite bind_eq.
  unfold deref at 1, map_index at 1, map_load at 1, map_assign at 1.
  cbn. rewrite Hr.
  replace (length maps + 1) with (length (maps ++ [user]))
    by (rewrite length_app; simpl; lia).
  rewrite lookup_snoc, alter_snoc_l. cbn.
  apply IH.
Qed.

(** C2. The update request carries the labels of the local state with
    every reserved key bound to what the index expression gives on the
    labels of the record just fetched: the remote value of the key when
    the record has one (the nil value when it has none), whatever the
    local state bound the key to. The other keys are sent as the local
    state has them. *)
Theorem update_sends_reserved_labels meta client st hj w1 :
  EnvironmentClient meta (rd_environment_id (st_d st)) = inl client →
  Host_ById client (rd_id (st_d st)) (st_remote st) = (Some hj, None, w1) →
  let sent :=
    foldl (λ m lbl, <[lbl := index (Labels hj) lbl]> m) (rd_labels (st_d st)) roLabels in
  let data := mkHostUpdate (rd_name (st_d st)) (rd_description (st_d st)) sent in
  let answer := (Update client "host" (Id hj) data w1).1 in
  (∃ rest, st_log (resourceRancherHostUpdate removed range_order meta st).2
           = st_log st ++ [EvById (rd_id (st_d st)) (Some (State hj)) None;
                           EvUpdate "host" (Id hj) data answer] ++ rest)
  ∧ (∀ lbl, lbl ∈ roLabels → sent !! lbl = Some (index (Labels hj) lbl))
  ∧ (∀ lbl v, lbl ∈ roLabels → Labels hj !! lbl = Some v → sent !! lbl = Some v)
  ∧ (∀ k, k ∉ roLabels → sent !! k = rd_labels (st_d st) !! k).
Proof.
  intros Henv Hby. cbv zeta. split.
  - unfold resourceRancherHostUpdate. exec. rewrite Henv. exec.
    unfold d_Get_labels, d_Id, map_new. exec. rewrite Hby. exec.
    rewrite update_range by (cbn; rewrite length_app; simpl; lia).
    unfold client_Update, map_load, remote_call. exec.
    rewrite lookup_snoc_l. cbn.
    destruct (Update client _ _ _ w1) as [[e|] w2]; exec.
    + eexists []. by rewrite <- !app_assoc.
    + match goal with |- context [resourceRancherHostRead removed range_order meta ?s] =>
        destruct (read_log meta s) as [tr ->] end.
      exists tr. cbn. by rewrite <- !app_assoc.
  - split; [| split].
    + intros lbl Hl. rewrite roLabels_merged. by case_decide.
    + intros lbl v Hl Hv. rewrite roLabels_merged. case_decide; [| done].
      unfold index. by rewrite Hv.
    + intros k Hk. rewrite roLabels_merged. by case_decide.
Qed.

(** ** Missing and removed records *)

(** C3, as amended. When the record is missing or its state is removed, a
    read does not fail: it empties the stored id and returns success. *)
Theorem read_missing_or_removed meta client st :
  EnvironmentClient meta (rd_environment_id (st_d st)) = inl client →
  missing_or_removed removed client st →
  succeeds_clearing_identity (resourceRancherHostRead removed range_order meta) st.
Proof.
  unfold missing_or_removed, succeeds_clearing_identity.
  intros Henv Hmr. unfold resourceRancherHostRead. exec. rewrite Henv. exec.
  destruct (Host_ById client _ _) as [[[h|] [e|]] w]; try done; exec.
  by rewrite Hmr.
Qed.



(** ** The poll loop *)

Lemma refresh_loop_0 conf checks tick st :
  refresh_loop conf checks 0 tick st = (Ok (None, Some (TimeoutError conf)), st).
Proof. reflexivity. Qed.

(** A refresh that returns an error ends the loop with this error. *)
Lemma refresh_loop_error conf checks polls tick st res s e st' :
  Refresh conf st = (Ok (res, s, Some e), st') →
  refresh_loop conf checks (S polls) tick st = (Ok (None, Some e), st').
Proof. intros H. unfold refresh_loop. rewrite bind_eq, H. reflexivity. Qed.

Lemma refresh_loop_panic conf checks polls tick st st' :
  Refresh conf st = (Panic, st') →
  refresh_loop conf checks (S polls) tick st = (Panic, st').
Proof. intros H. unfold refresh_loop. rewrite bind_eq, H. reflexivity. Qed.

Lemma refresh_loop_fail conf checks polls tick st e st' :
  Refresh conf st = (Err e, st') →
  refresh_loop conf checks (S polls) tick st = (Err e, st').
Proof. intros H. unfold refresh_loop. rewrite bind_eq, H. reflexivity. Qed.

(** A result in a target state ends the loop with this result. *)
Lemma refresh_loop_target conf checks polls tick st h s st' :
  Refresh conf st = (Ok (Some h, s, None), st') →
  s ∈ Target conf →
  refresh_loop conf checks (S polls) tick st = (Ok (Some h, None), st').
Proof.
  intros H Hs. unfold refresh_loop. rewrite bind_eq, H.
  by rewrite decide_True.
Qed.

(** A result in a pending state lets the loop go on. *)
Lemma refresh_loop_pending conf checks polls tick st h s st' :
  Refresh conf st = (Ok (Some h, s, None), st') →
  s ∈ Pending conf → s ∉ Target conf →
  refresh_loop conf checks (S polls) tick st = refresh_loop conf checks polls 0 st'.
Proof.
  intros H Hp Ht. unfold refresh_loop; fold (@refresh_loop W).
  rewrite bind_eq, H. by rewrite decide_False, decide_True.
Qed.

(** A result in any other state ends the loop with a failure. *)
Lemma refresh_loop_unexpected conf checks polls tick st h s st' :
  Refresh conf st = (Ok (Some h, s, None), st') →
  s ∉ Pending conf → s ∉ Target conf →
  refresh_loop conf checks (S polls) tick st
  = (Ok (None, Some (UnexpectedStateError s conf)), st').
Proof.
  intros H Hp Ht. unfold refresh_loop. rewrite bind_eq, H.
  by rewrite !decide_False.
Qed.

(** A refresh without a result is counted, and ends the loop once more
    than [checks] of them were seen in a row. *)
Lemma refresh_loop_not_found conf checks polls tick st s st' :
  Refresh conf st = (Ok (None, s, None), st') →
  Target conf ≠ [] →
  refresh_loop conf checks (S polls) tick st =
    if decide (checks < S tick) then (Ok (None, Some NotFoundError), st')
    else refresh_loop conf checks polls (S tick) st'.
Proof.
  intros H Ht. unfold refresh_loop; fold (@refresh_loop W).
  rewrite bind_eq, H. rewrite decide_False; [| by destruct (Target conf)].
  by case_decide.
Qed.

Lemma refresh_loop_pending_run conf checks k polls tick st st1 :
  pending_run conf k st st1 →
  refresh_loop conf checks (k + polls) tick st
  = refresh_loop conf checks polls (if k is 0 then tick else 0) st1.
Proof.
  intros Hrun. revert tick.
  induction Hrun as [st | k st h s st' st'' Hr Hp Ht Hrun IH]; intros tick; [done |].
  cbn [Nat.add]. rewrite (refresh_loop_pending _ _ _ _ _ _ _ _ Hr Hp Ht), IH.
  by destruct k.
Qed.

Lemma refresh_loop_not_found_run conf checks k polls tick st st1 :
  not_found_run (Refresh conf) k st st1 →
  Target conf ≠ [] →
  tick + k ≤ checks →
  refresh_loop conf checks (k + polls) tick st
  = refresh_loop conf checks polls (tick + k) st1.
Proof.
  intros Hrun Ht. revert tick.
  induction Hrun as [st | k st st' st'' Hr Hrun IH]; intros tick Hk.
  - by rewrite Nat.add_0_r.
  - cbn [Nat.add]. rewrite (refresh_loop_not_found _ _ _ _ _ _ _ Hr Ht).
    rewrite decide_False by lia. rewrite IH by lia. f_equal. lia.
Qed.



(** ** The poll of create *)

(** Decoding keeps the hostnames, writes no entry in the log and leaves
    the local state and the platform alone. *)
Lemma decode_all_eq (data : list (Host labelmap)) st :
  ∃ data' maps,
    decode_all data st
      = (Ok data', mkSt (st_d st) (st_remote st) (st_maps st ++ maps) (st_log st))
    ∧ Hostname <$> data' = Hostname <$> data.
Proof.
  revert st. induction data as [| h data IH]; intros st.
  - exists [], []. cbn. rewrite app_nil_r. by destruct st.
  - cbn. unfold bind, decode, map_new. cbn.
    match goal with |- context [decode_all data ?s] =>
      destruct (IH s) as (data' & maps & -> & Hn) end.
    cbn. eexists _, ([Labels h] ++ maps). rewrite <- app_assoc.
    split; [reflexivity |]. cbn. by rewrite Hn.
Qed.

Lemma findHost_range_None (hostname : string) (data : list (Host mapref)) :
  Forall (λ n, n ≠ hostname) (Hostname <$> data) →
  findHost_range hostname data = None.
Proof.
  induction data as [| h data IH]; [done |].
  cbn. intros [Hh Hd]%Forall_cons. by rewrite decide_False, IH.
Qed.

(** [findHost] makes one list call and writes one entry in the log; it
    returns no error, and it leaves the local state alone. *)
Lemma findHost_eq client hostname st :
  ∃ maps,
    let '(hosts, err, w) := Host_List client (st_remote st) in
    (findHost client hostname st).2
      = mkSt (st_d st) w (st_maps st ++ maps) (st_log st ++ [EvList err])
    ∧ match hosts with
      | None => (findHost client hostname st).1 = Panic
      | Some data =>
        (∃ res s, (findHost client hostname st).1 = Ok (res, s, None))
        ∧ (Forall (λ h, Hostname h ≠ hostname) data →
           (findHost client hostname st).1 = Ok (None, "not found", None))
      end.
Proof.
  unfold findHost, client_Host_List, remote_call, emit. exec.
  destruct (Host_List client (st_remote st)) as [[[data|] err] w]; exec.
  2: { exists []. by rewrite app_nil_r. }
  match goal with |- context [decode_all data ?s] =>
    destruct (decode_all_eq data s) as (data' & maps & -> & Hn) end.
  exists maps. exec. split.
  - by destruct (findHost_range hostname data').
  - split.
    + destruct (findHost_range hostname data'); eauto.
    + intros Hno. rewrite findHost_range_None; [done |].
      rewrite Hn. by apply Forall_fmap.
Qed.

(** One refresh without a result more than [checks] allows ends the loop. *)
Lemma refresh_loop_gives_up conf checks k polls tick st st1 :
  not_found_run (Refresh conf) k st st1 →
  Target conf ≠ [] →
  tick ≤ checks → tick + k = S checks → k ≤ polls →
  refresh_loop conf checks polls tick st = (Ok (None, Some NotFoundError), st1).
Proof.
  intros Hrun Ht. revert tick polls.
  induction Hrun as [st | k st st' st'' Hr Hrun IH]; intros tick polls Hc Hk Hp; [lia |].
  destruct polls as [| polls]; [lia |].
  rewrite (refresh_loop_not_found _ _ _ _ _ _ _ Hr Ht).
  case_decide.
  - assert (k = 0) as -> by lia. by inversion Hrun.
  - apply IH; lia.
Qed.

(** C5. In the poll of create, a list of hosts none of which has the
    hostname is reported as the state "not found", which is one of the
    pending states, with no result and no error. The poll allows for 50
    such observations in a row: after up to 50 of them, a host found in a
    target state still ends the poll successfully; the 51st ends it with a
    failure. *)
Theorem create_poll_tolerates_not_found client (hostname : string) :
  let conf := Create_stateConf client hostname in
  "not found" ∈ Pending conf
  ∧ NotFoundChecks conf = 50
  ∧ (∀ st data err w,
       Host_List client (st_remote st) = (Some data, err, w) →
       Forall (λ h, Hostname h ≠ hostname) data →
       (findHost client hostname st).1 = Ok (None, "not found", None))
  ∧ (∀ k st st1,
       not_found_run (findHost client hostname) k st st1 →
       (∀ host s st2,
          k ≤ 50 → k < budget (10 * Minute) →
          findHost client hostname st1 = (Ok (Some host, s, None), st2) →
          s ∈ Target conf →
          WaitForState budget conf st = (Ok (Some host, None), st2))
       ∧ (k = 51 → 51 ≤ budget (10 * Minute) →
          WaitForState budget conf st = (Ok (None, Some NotFoundError), st1))).
Proof.
  cbv zeta. split; [| split; [done | split]].
  - unfold Create_stateConf; cbn. rewrite !elem_of_cons. auto.
  - intros st data err w Hl Hno.
    destruct (findHost_eq client hostname st) as [maps H]. rewrite Hl in H.
    destruct H as (_ & _ & H). by apply H.
  - intros k st st1 Hrun. unfold WaitForState. cbn [NotFoundChecks Create_stateConf Timeout].
    rewrite decide_False by done. split.
    + intros host s st2 Hk Hb Hf Hs.
      replace (budget (10 * Minute)) with (k + S (budget (10 * Minute) - S k)) by lia.
      rewrite (refresh_loop_not_found_run _ _ k _ 0 st st1); [| done | done | lia].
      by apply refresh_loop_target with s.
    + intros -> Hb.
      apply (refresh_loop_gives_up (Create_stateConf client hostname) 50 51);
        [done | done | lia | lia | done].
Qed.


(** ** How a poll ends *)

(** A poll that sees pending states and then a target state ends
    successfully with the host it saw last, provided the timeout leaves
    room for these refreshes. *)
Lemma WaitForState_target conf k st st1 h s st2 :
  pending_run conf k st st1 →
  Refresh conf st1 = (Ok (Some h, s, None), st2) →
  s ∈ Target conf →
  k < budget (Timeout conf) →
  WaitForState budget conf st = (Ok (Some h, None), st2).
Proof.
  intros Hrun Hr Hs Hk. unfold WaitForState.
  replace (budget (Timeout conf)) with (k + S (budget (Timeout conf) - S k)) by lia.
  rewrite (refresh_loop_pending_run _ _ _ _ _ _ _ Hrun).
  by apply refresh_loop_target with s.
Qed.

(** A poll that sees pending states for as long as the timeout leaves
    room ends with the timeout failure. *)
Lemma WaitForState_timeout conf st st1 :
  pending_run conf (budget (Timeout conf)) st st1 →
  WaitForState budget conf st = (Ok (None, Some (TimeoutError conf)), st1).
Proof.
  intros Hrun. unfold WaitForState.
  rewrite <- (Nat.add_0_r (budget (Timeout conf))).
  by rewrite (refresh_loop_pending_run _ _ _ _ _ _ _ Hrun).
Qed.

(** A poll ends successfully with a host only when its last refresh saw
    this host in a target state. *)
Lemma refresh_loop_success conf checks polls tick st h st' :
  refresh_loop conf checks polls tick st = (Ok (Some h, None), st') →
  ∃ st0 s, Refresh conf st0 = (Ok (Some h, s, None), st') ∧ s ∈ Target conf.
Proof.
  revert tick st. induction polls as [| polls IH]; intros tick st; [done |].
  unfold refresh_loop; fold (@refresh_loop W). rewrite bind_eq.
  destruct (Refresh conf st) as [[[[res s] [e|]]|e|] st1] eqn:Hr; cbn; try done.
  destruct res as [r |].
  - case_decide as Ht; [| case_decide as Hp]; cbn.
    + intros [= <- <-]. eauto.
    + apply IH.
    + done.
  - case_decide; [done |]. case_decide; [done | apply IH].
Qed.

(** C6. Every poll that sees a host in a target state, after any number
    of pending states, ends successfully with this host, and no poll ends
    successfully with a host that its last refresh did not see in a target
    state; every poll that sees pending states until the timeout has run
    out ends with the timeout failure. The target states of create are
    active and
    disconnected, and the timeout of the three polls is ten minutes. A
    failure of the poll makes create fail with a message that names the
    hostname and says it waited for the host to be found, and makes delete
    fail with a message that names the id and says it waited for the host
    to be removed, for both of its polls. *)
Theorem poll_ends meta client (name : string) :
  (∀ conf k st st1,
     pending_run conf k st st1 →
     (∀ h s st2,
        Refresh conf st1 = (Ok (Some h, s, None), st2) →
        s ∈ Target conf →
        k < budget (Timeout conf) →
        WaitForState budget conf st = (Ok (Some h, None), st2))
     ∧ (k = budget (Timeout conf) →
        WaitForState budget conf st = (Ok (None, Some (TimeoutError conf)), st1)))
  ∧ (∀ conf st h st',
       WaitForState budget conf st = (Ok (Some h, None), st') →
       ∃ st0 s, Refresh conf st0 = (Ok (Some h, s, None), st') ∧ s ∈ Target conf)
  ∧ Target (Create_stateConf client name) = ["active"; "disconnected"]
  ∧ Timeout (Create_stateConf client name) = (10 * Minute)%Z
  ∧ Timeout (Delete_stateConf_inactive client name) = (10 * Minute)%Z
  ∧ Timeout (Delete_stateConf_removed client name) = (10 * Minute)%Z
  ∧ (∀ st res e st1,
       EnvironmentClient meta (rd_environment_id (st_d st)) = inl client →
       WaitForState budget (Create_stateConf client (rd_hostname (st_d st))) st
         = (Ok (res, Some e), st1) →
       resourceRancherHostCreate removed budget range_order meta st
         = (Err ("Error waiting for host (" +:+ rd_hostname (st_d st) +:+
                 ") to be found: " +:+ e), st1))
  ∧ (∀ st h sta stb res e st1,
       EnvironmentClient meta (rd_environment_id (st_d st)) = inl client →
       client_Host_ById client (rd_id (st_d st)) st = (Ok (Some h, None), sta) →
       State h ≠ "inactive" →
       client_Host_ActionDeactivate client (Some h) sta = (Ok None, stb) →
       WaitForState budget (Delete_stateConf_inactive client (rd_id (st_d st))) stb
         = (Ok (res, Some e), st1) →
       resourceRancherHostDelete budget meta st
         = (Err ("Error waiting for host (" +:+ rd_id (st_d st) +:+
                 ") to be removed: " +:+ e), st1))
  ∧ (∀ host st sta res e st1,
       client_Host_Delete client host st = (Ok None, sta) →
       WaitForState budget (Delete_stateConf_removed client name) sta
         = (Ok (res, Some e), st1) →
       Delete_remove budget client name host st
         = (Err ("Error waiting for host (" +:+ name +:+
                 ") to be removed: " +:+ e), st1)).
Proof.
  split; [| split; [| repeat split]].
  - intros conf k st st1 Hrun. split.
    + intros h s st2 Hr Hs Hk. by apply WaitForState_target with k st1 s.
    + intros ->. by apply WaitForState_timeout.
  - intros conf st h st'. apply refresh_loop_success.
  - intros st res e st1 Henv Hw.
    unfold resourceRancherHostCreate. exec0. rewrite Henv. exec0. by rewrite Hw.
  - intros st h sta stb res e st1 Henv Hby Hs Hd Hw.
    unfold resourceRancherHostDelete, d_Id. exec0. rewrite Henv. exec0.
    rewrite Hby. exec0. rewrite decide_True by done. exec0.
    rewrite Hd. exec0. by rewrite Hw.
  - intros host st sta res e st1 Hd Hw.
    unfold Delete_remove. exec0. rewrite Hd. exec0. by rewrite Hw.
Qed.


(** ** The polls of delete *)

(** A poll by id fetches the host until it ends: the log grows by the
    fetches that saw a pending state and by the entry of the refresh that
    ended the poll; the local state is left alone. *)
Lemma refresh_loop_by_id client id conf checks polls tick st :
  Refresh conf = HostStateRefreshFunc client id →
  ∃ ps last,
    st_log (refresh_loop conf checks polls tick st).2
      = st_log st ++ fetches id ps ++ last
    ∧ st_d (refresh_loop conf checks polls tick st).2 = st_d st
    ∧ Forall (λ s, s ∈ Pending conf ∧ s ∉ Target conf) ps
    ∧ by_id_end conf id (refresh_loop conf checks polls tick st).1 last.
Proof.
  intros Href. revert tick st.
  induction polls as [| polls IH]; intros tick st.
  - exists [], []. cbn. rewrite app_nil_r. repeat split; [done | constructor].
  - unfold refresh_loop; fold (@refresh_loop W). rewrite bind_eq, Href.
    unfold HostStateRefreshFunc. exec.
    destruct (Host_ById client id (st_remote st)) as [[[h|] [e|]] w]; exec.
    + exists [], [EvById id (Some (State h)) (Some e)].
      repeat split; [done | constructor].
    + case_decide as Ht; [| case_decide as Hp]; exec.
      * exists [], [EvById id (Some (State h)) None].
        repeat split; [done |]. by apply (by_id_target conf id (mkHost _ _ _ _ _ _)).
      * match goal with |- context [refresh_loop conf checks polls 0 ?s] =>
          destruct (IH 0 s) as (ps & last & Hlog & Hd & Hps & Hend) end.
        exists (State h :: ps), last. rewrite Hlog, Hd. cbn.
        rewrite <- !app_assoc. repeat split; [by constructor | done].
      * exists [], [EvById id (Some (State h)) None].
        repeat split; [done |]. by constructor.
    + exists [], [EvById id None (Some e)]. repeat split; [done | constructor].
    + exists [], [EvById id None None]. repeat split; [done | constructor].
Qed.

Lemma WaitForState_by_id client id conf st :
  Refresh conf = HostStateRefreshFunc client id →
  ∃ ps last,
    st_log (WaitForState budget conf st).2 = st_log st ++ fetches id ps ++ last
    ∧ st_d (WaitForState budget conf st).2 = st_d st
    ∧ Forall (λ s, s ∈ Pending conf ∧ s ∉ Target conf) ps
    ∧ by_id_end conf id (WaitForState budget conf st).1 last.
Proof. apply refresh_loop_by_id. Qed.







(** ** Errors of the remote client *)

Lemma append_assoc (s1 s2 s3 : string) : (s1 +:+ s2) +:+ s3 = s1 +:+ s2 +:+ s3.
Proof.
  induction s1 as [| a s1 IH]; [done |].
  cbv [String.append]; fold String.append. by rewrite IH.
Qed.

Lemma errors_reported_nil r : errors_reported r [].
Proof. intros ev e Hin. by apply elem_of_nil in Hin. Qed.

Lemma errors_reported_app r tr1 tr2 :
  errors_reported r tr1 → errors_reported r tr2 → errors_reported r (tr1 ++ tr2).
Proof. intros H1 H2 ev e [Hin | Hin]%elem_of_app; eauto. Qed.

Lemma errors_reported_silent r ev tr :
  event_err ev = None → errors_reported r tr → errors_reported r (ev :: tr).
Proof.
  intros Hev Htr ev' e [-> | Hin]%elem_of_cons; [| by eauto].
  intros _ He. congruence.
Qed.

Lemma errors_reported_list r ev tr :
  is_list ev = true → errors_reported r tr → errors_reported r (ev :: tr).
Proof.
  intros Hev Htr ev' e [-> | Hin]%elem_of_cons; [| by eauto].
  intros Hl. congruence.
Qed.

Lemma errors_reported_err pre e ev tr :
  event_err ev = Some e →
  errors_reported (Err (pre +:+ e)) tr →
  errors_reported (Err (pre +:+ e)) (ev :: tr).
Proof.
  intros Hev Htr ev' e' [-> | Hin]%elem_of_cons; [| by eauto].
  intros _ He. exists pre. congruence.
Qed.

Lemma errors_reported_fetches r id ps : errors_reported r (fetches id ps).
Proof.
  induction ps as [| s ps IH]; [apply errors_reported_nil |].
  by apply errors_reported_silent.
Qed.

Lemma errors_reported_by_id_end conf id res werr last (r : outcome unit) :
  by_id_end conf id (Ok (res, werr)) last →
  (∀ e, werr = Some e → ∃ pre, r = Err (pre +:+ e)) →
  errors_reported r last.
Proof.
  intros Hend Hr. inversion Hend; subst.
  - apply errors_reported_nil.
  - apply errors_reported_silent; [done | apply errors_reported_nil].
  - apply errors_reported_silent; [done | apply errors_reported_nil].
  - destruct (Hr _ eq_refl) as [pre ->].
    apply errors_reported_err; [done | apply errors_reported_nil].
Qed.

Lemma errors_reported_by_id_panic conf id last (r : outcome unit) :
  by_id_end conf id Panic last → errors_reported r last.
Proof.
  inversion 1. apply errors_reported_silent; [done | apply errors_reported_nil].
Qed.

Ltac solve_reported :=
  repeat first
    [ apply errors_reported_nil
    | apply errors_reported_fetches
    | apply errors_reported_silent; [done |]
    | apply errors_reported_list; [done |]
    | apply (errors_reported_err ""); [done |]
    | apply errors_reported_err; [done |]
    | apply errors_reported_app ].

Lemma read_reports_errors meta : reports_errors (resourceRancherHostRead removed range_order meta).
Proof.
  intros st. unfold resourceRancherHostRead. exec.
  destruct (EnvironmentClient meta _) as [client | e]; exec.
  2: { exists []. rewrite app_nil_r. split; [done | solve_reported]. }
  destruct (Host_ById client _ _) as [[[h|] [e|]] w]; exec;
    try destruct (removed (State h)); exec; rewrite ?read_range; exec;
    rewrite <- ?app_assoc; (eexists; split; [reflexivity | solve_reported]).
Qed.

Lemma update_reports_errors meta :
  reports_errors (resourceRancherHostUpdate removed range_order meta).
Proof.
  intros st. unfold resourceRancherHostUpdate. exec.
  destruct (EnvironmentClient meta _) as [client | e]; exec.
  2: { exists []. rewrite app_nil_r. split; [done | solve_reported]. }
  unfold d_Get_labels, d_Id, map_new. exec.
  destruct (Host_ById client _ _) as [[[h|] [e|]] w]; exec.
  1, 3: eexists [_]; split; [done | solve_reported].
  - rewrite update_range by (cbn; rewrite length_app; simpl; lia).
    unfold client_Update, map_load, remote_call, emit. exec.
    destruct (Update client _ _ _ w) as [[e|] w2]; exec.
    + eexists [_; _]. rewrite <- app_assoc. split; [done | solve_reported].
    + pose proof (read_reports_errors meta) as Hread. unfold reports_errors in Hread.
      match goal with |- context [resourceRancherHostRead removed range_order meta ?s] =>
        destruct (Hread s) as (tr & Hlog & Hrep);
        destruct (resourceRancherHostRead removed range_order meta s) as [r' st'] end.
      cbn in Hlog, Hrep |- *. eexists. rewrite Hlog, <- !app_assoc.
      split; [reflexivity | solve_reported]. done.
  - unfold roLabels, for_each. exec.
    eexists [_]. split; [done | solve_reported].
Qed.

Lemma Delete_remove_reports_errors client id host :
  reports_errors (Delete_remove budget client id host).
Proof.
  intros st. unfold Delete_remove, client_Host_Delete, remote_call, emit. exec.
  destruct host as [h |]; exec.
  2: { exists []. rewrite app_nil_r. split; [done | solve_reported]. }
  destruct (Host_Delete client (Id h) (st_remote st)) as [[e|] w]; exec.
  { eexists [_]. split; [done | solve_reported]. }
  match goal with |- context [WaitForState budget ?c ?s] =>
    destruct (WaitForState_by_id client id c s eq_refl)
      as (qs & last & Hlog & Hd & Hqs & Hend);
    destruct (WaitForState budget c s) as [[[res [e|]]|e|] st3] end;
    cbn in Hlog, Hd, Hend |- *.
  4: { eexists. rewrite Hlog, <- !app_assoc. split; [reflexivity |].
       solve_reported. by eapply errors_reported_by_id_panic. }
  3: by inversion Hend.
  - eexists. rewrite Hlog, <- !app_assoc. split; [reflexivity |].
    solve_reported. eapply errors_reported_by_id_end; [exact Hend |].
    intros e' [= <-]. eexists. by rewrite <- !append_assoc.
  - eexists. rewrite Hlog, <- !app_assoc. split; [reflexivity |].
    solve_reported. eapply errors_reported_by_id_end; [exact Hend | done].
Qed.

Lemma delete_reports_errors meta :
  reports_errors (resourceRancherHostDelete budget meta).
Proof.
  intros st. unfold resourceRancherHostDelete, d_Id. exec.
  destruct (EnvironmentClient meta _) as [client | e]; exec.
  2: { exists []. rewrite app_nil_r. split; [done | solve_reported]. }
  destruct (Host_ById client _ _) as [[[h|] [e|]] w]; exec.
  1, 3, 4: eexists [_]; split; [done | solve_reported].
  pose proof (Delete_remove_reports_errors client (rd_id (st_d st))) as Hrem.
  unfold reports_errors in Hrem.
  case_decide as Hs; exec.
  - unfold client_Host_ActionDeactivate, remote_call, emit. exec.
    destruct (Host_ActionDeactivate client (Id h) w) as [[e|] w1]; exec.
    { eexists [_; _]. rewrite <- app_assoc. split; [done | solve_reported]. }
    match goal with |- context [WaitForState budget ?c ?s] =>
      destruct (WaitForState_by_id client (rd_id (st_d st)) c s eq_refl)
        as (ps & last & Hlog & Hd & Hps & Hend);
      destruct (WaitForState budget c s) as [[[res [e|]]|e|] st3] end;
      cbn in Hlog, Hd, Hend |- *.
    4: { eexists. rewrite Hlog, <- !app_assoc. split; [reflexivity |].
         solve_reported. by eapply errors_reported_by_id_panic. }
    3: by inversion Hend.
    + eexists. rewrite Hlog, <- !app_assoc. split; [reflexivity |].
      solve_reported. eapply errors_reported_by_id_end; [exact Hend |].
      intros e' [= <-]. eexists. by rewrite <- !append_assoc.
    + match goal with |- context [Delete_remove budget client ?i ?host st3] =>
        destruct (Hrem host st3) as (tr & Hlog' & Hrep);
        destruct (Delete_remove budget client i host st3) as [r' st'] end.
      cbn in Hlog', Hrep |- *. eexists. rewrite Hlog', Hlog, <- !app_assoc.
      split; [reflexivity |]. solve_reported; [| done].
      eapply errors_reported_by_id_end; [exact Hend | done].
  - match goal with |- context [Delete_remove budget client ?i ?host ?s] =>
      destruct (Hrem host s) as (tr & Hlog' & Hrep);
      destruct (Delete_remove budget client i host s) as [r' st'] end.
    cbn in Hlog', Hrep |- *. eexists. rewrite Hlog', <- !app_assoc.
    split; [reflexivity | solve_reported]. done.
Qed.

Lemma errors_reported_lists r tr :
  Forall (λ ev, is_list ev = true) tr → errors_reported r tr.
Proof.
  induction 1 as [| ev tr Hev Htr IH]; [apply errors_reported_nil |].
  by apply errors_reported_list.
Qed.

(** The poll of create makes list calls only, and leaves the local state
    alone. *)
Lemma refresh_loop_findHost client hostname conf checks polls tick st :
  Refresh conf = findHost client hostname →
  ∃ tr,
    st_log (refresh_loop conf checks polls tick st).2 = st_log st ++ tr
    ∧ st_d (refresh_loop conf checks polls tick st).2 = st_d st
    ∧ Forall (λ ev, is_list ev = true) tr.
Proof.
  intros Href. revert tick st.
  induction polls as [| polls IH]; intros tick st.
  - exists []. cbn. by rewrite app_nil_r.
  - unfold refresh_loop; fold (@refresh_loop W). rewrite bind_eq, Href.
    destruct (findHost_eq client hostname st) as [maps H].
    destruct (Host_List client (st_remote st)) as [[hosts err] w].
    destruct H as [Hst Hr].
    destruct (findHost client hostname st) as [r st1]. cbn in Hst, Hr. subst st1.
    destruct hosts as [data |].
    2: { subst r. eexists [_]. split; [done |]. split; [done |]. by repeat constructor. }
    destruct Hr as [(res & s & ->) _].
    destruct res as [host |]; cbn.
    + case_decide; [| case_decide]; cbn.
      1, 3: eexists [_]; (split; [done |]); (split; [done |]); by repeat constructor.
      match goal with |- context [refresh_loop conf checks polls 0 ?s] =>
        destruct (IH 0 s) as (tr & Hlog & Hd & Htr) end.
      eexists. rewrite Hlog, Hd. cbn. rewrite <- app_assoc.
      split; [reflexivity |]. split; [done |]. by constructor.
    + case_decide; [| case_decide]; cbn.
      1, 2: eexists [_]; (split; [done |]); (split; [done |]); by repeat constructor.
      match goal with |- context [refresh_loop conf checks polls ?t ?s] =>
        destruct (IH t s) as (tr & Hlog & Hd & Htr) end.
      eexists. rewrite Hlog, Hd. cbn. rewrite <- app_assoc.
      split; [reflexivity |]. split; [done |]. by constructor.
Qed.

Lemma create_reports_errors meta :
  reports_errors (resourceRancherHostCreate removed budget range_order meta).
Proof.
  intros st. unfold resourceRancherHostCreate. exec.
  destruct (EnvironmentClient meta _) as [client | e]; exec.
  2: { exists []. rewrite app_nil_r. split; [done | solve_reported]. }
  match goal with |- context [WaitForState budget ?c st] =>
    destruct (refresh_loop_findHost client (rd_hostname (st_d st)) c
                (if decide (NotFoundChecks c = 0) then 20 else NotFoundChecks c)
                (budget (Timeout c)) 0 st eq_refl)
      as (tr & Hlog & Hd & Htr);
    change (refresh_loop c _ _ 0 st) with (WaitForState budget c st) in Hlog, Hd;
    destruct (WaitForState budget c st) as [[[res [e|]]|e|] st1] end;
    cbn in Hlog, Hd |- *.
  1, 3, 4: exists tr; split; [done | by apply errors_reported_lists].
  destruct res as [h |]; exec.
  2: { exists tr. split; [done | by apply errors_reported_lists]. }
  unfold d_SetId. cbn.
  pose proof (update_reports_errors meta) as Hupd. unfold reports_errors in Hupd.
  match goal with |- context [resourceRancherHostUpdate removed range_order meta ?s] =>
    destruct (Hupd s) as (tr' & Hlog' & Hrep);
    destruct (resourceRancherHostUpdate removed range_order meta s) as [r' st'] end.
  cbn in Hlog', Hrep |- *. eexists. rewrite Hlog', Hlog, <- !app_assoc.
  split; [reflexivity |]. solve_reported; [| done].
  by apply errors_reported_lists.
Qed.

(** X15. Every error that a fetch by id, an update call, a deactivate call
    or a delete call returns while an operation runs is the error the
    operation returns, as it is or behind a prefix; so is the error of
    [EnvironmentClient]. The refresh of a poll by id hands the error of
    its fetch to the poll. The error of a list call is not among them. *)
Theorem remote_errors_reported meta :
  reports_errors (resourceRancherHostCreate removed budget range_order meta)
  ∧ reports_errors (resourceRancherHostRead removed range_order meta)
  ∧ reports_errors (resourceRancherHostUpdate removed range_order meta)
  ∧ reports_errors (resourceRancherHostDelete budget meta)
  ∧ (∀ st e,
       EnvironmentClient meta (rd_environment_id (st_d st)) = inr e →
       (resourceRancherHostCreate removed budget range_order meta st).1 = Err e
       ∧ (resourceRancherHostRead removed range_order meta st).1 = Err e
       ∧ (resourceRancherHostUpdate removed range_order meta st).1 = Err e
       ∧ (resourceRancherHostDelete budget meta st).1 = Err e)
  ∧ (∀ client id st host e w,
       Host_ById client id (st_remote st) = (host, Some e, w) →
       (HostStateRefreshFunc client id st).1 = Ok (None, "", Some e)).
Proof.
  split; [apply create_reports_errors |].
  split; [apply read_reports_errors |].
  split; [apply update_reports_errors |].
  split; [apply delete_reports_errors |].
  split.
  - intros st e He.
    unfold resourceRancherHostCreate, resourceRancherHostRead,
      resourceRancherHostUpdate, resourceRancherHostDelete, d_Id.
    exec. by rewrite He.
  - intros client id st host e w Hby. unfold HostStateRefreshFunc. exec.
    rewrite Hby. by destruct host.
Qed.

(** ** A fetch without a record *)

Lemma read_no_panic meta st : (resourceRancherHostRead removed range_order meta st).1 ≠ Panic.
Proof.
  unfold resourceRancherHostRead. exec.
  destruct (EnvironmentClient meta _) as [client | e]; exec; [| done].
  destruct (Host_ById client _ _) as [[[h|] [e|]] w]; exec;
    try destruct (removed (State h)); exec; rewrite ?read_range; by exec.
Qed.

Lemma refresh_loop_by_id_no_panic client id conf checks polls tick st :
  fetch_returns_record client →
  Refresh conf = HostStateRefreshFunc client id →
  (refresh_loop conf checks polls tick st).1 ≠ Panic.
Proof.
  intros Hrec Href. revert tick st.
  induction polls as [| polls IH]; intros tick st; [done |].
  unfold refresh_loop; fold (@refresh_loop W). rewrite bind_eq, Href.
  unfold HostStateRefreshFunc. exec.
  pose proof (Hrec id (st_remote st)) as Hne.
  destruct (Host_ById client id (st_remote st)) as [[[h|] [e|]] w]; exec; try done.
  case_decide; [done |]. case_decide; [apply IH | done].
Qed.

Lemma Delete_remove_no_panic client id (h : Host mapref) st :
  fetch_returns_record client →
  (Delete_remove budget client id (Some h) st).1 ≠ Panic.
Proof.
  intros Hrec. unfold Delete_remove, client_Host_Delete, remote_call, emit. exec.
  destruct (Host_Delete client (Id h) (st_remote st)) as [[e|] w]; exec; [done |].
  match goal with |- context [WaitForState budget ?c ?s] =>
    pose proof (refresh_loop_by_id_no_panic client id c
                  (if decide (NotFoundChecks c = 0) then 20 else NotFoundChecks c)
                  (budget (Timeout c)) 0 s Hrec eq_refl) as Hnp;
    change (refresh_loop c _ _ 0 s) with (WaitForState budget c s) in Hnp;
    destruct (WaitForState budget c s) as [[[res [e|]]|e|] st3] end; by cbn in *.
Qed.

(** C8. Update, delete and the refresh of the polls by id use the record
    a fetch returned without testing it for nil. When the fetch returns no
    record and no error they panic, and the stored id is left as it was:
    the missing record is not reported as such. When every fetch that
    returns no error returns a record, none of them panics. *)
Theorem fetch_without_record meta :
  (∀ client st w,
     EnvironmentClient meta (rd_environment_id (st_d st)) = inl client →
     Host_ById client (rd_id (st_d st)) (st_remote st) = (None, None, w) →
     let update := resourceRancherHostUpdate removed range_order meta st in
     let delete := resourceRancherHostDelete budget meta st in
     let refresh := HostStateRefreshFunc client (rd_id (st_d st)) st in
     update.1 = Panic ∧ rd_id (st_d update.2) = rd_id (st_d st)
     ∧ delete.1 = Panic ∧ rd_id (st_d delete.2) = rd_id (st_d st)
     ∧ refresh.1 = Panic)
  ∧ ((∀ env client, EnvironmentClient meta env = inl client →
                    fetch_returns_record client) →
     ∀ st,
       (resourceRancherHostUpdate removed range_order meta st).1 ≠ Panic
       ∧ (resourceRancherHostDelete budget meta st).1 ≠ Panic
       ∧ ∀ client id,
           EnvironmentClient meta (rd_environment_id (st_d st)) = inl client →
           (HostStateRefreshFunc client id st).1 ≠ Panic).
Proof.
  split.
  - intros client st w Henv Hby. cbv zeta.
    unfold resourceRancherHostUpdate, resourceRancherHostDelete,
      HostStateRefreshFunc, d_Get_labels, d_Id, map_new.
    exec. rewrite Henv. exec. rewrite Hby. exec.
    unfold roLabels, for_each. by exec.
  - intros Hrec st. split; [| split].
    + unfold resourceRancherHostUpdate. exec.
      destruct (EnvironmentClient meta _) as [client | e] eqn:Henv; exec; [| done].
      unfold d_Get_labels, d_Id, map_new. exec.
      pose proof (Hrec _ _ Henv (rd_id (st_d st)) (st_remote st)) as Hne.
      destruct (Host_ById client _ _) as [[[h|] [e|]] w]; exec; try done.
      rewrite update_range by (cbn; rewrite length_app; simpl; lia).
      unfold client_Update, map_load, remote_call, emit. exec.
      destruct (Update client _ _ _ w) as [[e|] w2]; exec; [done |].
      apply read_no_panic.
    + unfold resourceRancherHostDelete, d_Id. exec.
      destruct (EnvironmentClient meta _) as [client | e] eqn:Henv; exec; [| done].
      pose proof (Hrec _ _ Henv) as Hc.
      pose proof (Hc (rd_id (st_d st)) (st_remote st)) as Hne.
      destruct (Host_ById client _ _) as [[[h|] [e|]] w]; exec; try done.
      case_decide; exec; [| by apply Delete_remove_no_panic].
      unfold client_Host_ActionDeactivate, remote_call, emit. exec.
      destruct (Host_ActionDeactivate client (Id h) w) as [[e|] w1]; exec; [done |].
      match goal with |- context [WaitForState budget ?c ?s] =>
        pose proof (refresh_loop_by_id_no_panic client (rd_id (st_d st)) c
                      (if decide (NotFoundChecks c = 0) then 20 else NotFoundChecks c)
                      (budget (Timeout c)) 0 s Hc eq_refl) as Hnp;
        change (refresh_loop c _ _ 0 s) with (WaitForState budget c s) in Hnp;
        destruct (WaitForState budget c s) as [[[res [e|]]|e|] st3] end;
        cbn in *; try done.
      by apply Delete_remove_no_panic.
    + intros client id Henv. unfold HostStateRefreshFunc. exec.
      pose proof (Hrec _ _ Henv id (st_remote st)) as Hne.
      by destruct (Host_ById client _ _) as [[[h|] [e|]] w]; exec.
Qed.

(** ** The refresh functions *)

Lemma findHost_range_first (hostname : string) (pre post : list (Host mapref))
    (h : Host mapref) :
  Forall (λ n, n ≠ hostname) (Hostname <$> pre) →
  Hostname h = hostname →
  findHost_range hostname (pre ++ h :: post) = Some h.
Proof.
  intros Hpre Hh. induction pre as [| p pre IH]; cbn.
  - by rewrite decide_True.
  - apply Forall_cons in Hpre as [Hp Hpre]. rewrite decide_False by done. auto.
Qed.

(** Decoding keeps the fields of the hosts and their order, and adds their
    labels to the store. *)
Lemma decode_all_fields (data : list (Host labelmap)) st :
  ∃ data',
    decode_all data st
      = (Ok data',
         mkSt (st_d st) (st_remote st) (st_maps st ++ (Labels <$> data)) (st_log st))
    ∧ Forall2 (λ h' h, Id h' = Id h ∧ Name h' = Name h
                       ∧ Description h' = Description h
                       ∧ Hostname h' = Hostname h ∧ State h' = State h)
        data' data.
Proof.
  revert st. induction data as [| h data IH]; intros st.
  - exists []. cbn. rewrite app_nil_r. split; [by destruct st | constructor].
  - cbn. unfold bind, decode, map_new. cbn.
    match goal with |- context [decode_all data ?s] =>
      destruct (IH s) as (data' & -> & Hn) end.
    cbn. eexists. rewrite <- app_assoc.
    split; [reflexivity |]. by constructor.
Qed.

(** The refresh of create on a list whose first host with the hostname is
    [h]. *)
Lemma findHost_first client (hostname : string) st
    (pre post : list (Host labelmap)) (h : Host labelmap) err w :
  Host_List client (st_remote st) = (Some (pre ++ h :: post), err, w) →
  Forall (λ x, Hostname x ≠ hostname) pre →
  Hostname h = hostname →
  ∃ h',
    (findHost client hostname st).1 = Ok (Some h', State h, None)
    ∧ Id h' = Id h ∧ Name h' = Name h ∧ Hostname h' = hostname ∧ State h' = State h
    ∧ st_d (findHost client hostname st).2 = st_d st
    ∧ st_log (findHost client hostname st).2 = st_log st ++ [EvList err]
    ∧ st_remote (findHost client hostname st).2 = w.
Proof.
  intros Hl Hpre Hh.
  unfold findHost, client_Host_List, remote_call, emit. exec. rewrite Hl. exec.
  match goal with |- context [decode_all ?d ?s] =>
    destruct (decode_all_fields d s) as (data' & -> & Hf) end.
  exec.
  apply Forall2_app_inv_r in Hf as (pre' & rest & Hpre' & Hrest & ->).
  apply Forall2_cons_inv_r in Hrest as (h' & post' & (Hid & Hnm & Hds & Hhn & Hst) & Hpost & ->).
  rewrite (findHost_range_first hostname pre' post' h').
  - exists h'. cbn. rewrite Hst. repeat split; try done. congruence.
  - clear -Hpre Hpre'. induction Hpre' as [| x y l l' (_ & _ & _ & Hxy & _) Hll IH]; [constructor |].
    apply Forall_cons in Hpre as [Hy Hpre]. cbn. constructor; [congruence | auto].
  - congruence.
Qed.

(** X1. When the list holds a host with the hostname, the refresh of create
    returns the first such host of the list and its state, with no error,
    whatever error the list call returned; it makes this one list call and
    leaves the local state alone. *)
Theorem findHost_first_match client (hostname : string) st
    (pre post : list (Host labelmap)) (h : Host labelmap) err w :
  Host_List client (st_remote st) = (Some (pre ++ h :: post), err, w) →
  Forall (λ x, Hostname x ≠ hostname) pre →
  Hostname h = hostname →
  ∃ h',
    (findHost client hostname st).1 = Ok (Some h', State h, None)
    ∧ Id h' = Id h ∧ Name h' = Name h ∧ Hostname h' = hostname ∧ State h' = State h
    ∧ st_d (findHost client hostname st).2 = st_d st
    ∧ st_log (findHost client hostname st).2 = st_log st ++ [EvList err].
Proof.
  intros Hl Hpre Hh.
  destruct (findHost_first client hostname st pre post h err w Hl Hpre Hh)
    as (h' & Hr & Hid & Hnm & Hhn & Hst & Hd & Hlog & _).
  by exists h'.
Qed.

(** X2. When the fetch returns a record and no error, the refresh of the
    polls by id returns this record and its state, with no error; it makes
    this one fetch and leaves the local state alone. *)
Theorem HostStateRefreshFunc_found client (hostID : string) st
    (h : Host labelmap) w :
  Host_ById client hostID (st_remote st) = (Some h, None, w) →
  ∃ h',
    (HostStateRefreshFunc client hostID st).1 = Ok (Some h', State h, None)
    ∧ Id h' = Id h ∧ Name h' = Name h ∧ Hostname h' = Hostname h
    ∧ State h' = State h
    ∧ st_d (HostStateRefreshFunc client hostID st).2 = st_d st
    ∧ st_log (HostStateRefreshFunc client hostID st).2
      = st_log st ++ [EvById hostID (Some (State h)) None].
Proof.
  intros Hby. unfold HostStateRefreshFunc. exec. rewrite Hby. exec.
  eexists. repeat split.
Qed.

(** ** What a read does to the platform and to the local state *)

Lemma calls_app tr1 tr2 : calls (tr1 ++ tr2) = calls tr1 ++ calls tr2.
Proof. apply List.filter_app. Qed.

Lemma mutations_app tr1 tr2 : mutations (tr1 ++ tr2) = mutations tr1 ++ mutations tr2.
Proof. apply List.filter_app. Qed.

Lemma roLabels_reserved_free (m : labelmap) : reserved_free (without_reserved m).
Proof.
  intros k Hk. unfold without_reserved. rewrite roLabels_deleted. by case_decide.
Qed.

(** The calls of a read: at most one, a fetch by the stored id. *)
Lemma read_fetches meta st :
  ∃ tr,
    st_log (resourceRancherHostRead removed range_order meta st).2 = st_log st ++ tr
    ∧ (calls tr = [] ∨ ∃ o e, calls tr = [EvById (rd_id (st_d st)) o e])
    ∧ (∀ e, EnvironmentClient meta (rd_environment_id (st_d st)) = inr e →
            (resourceRancherHostRead removed range_order meta st).2 = st).
Proof.
  unfold resourceRancherHostRead. exec.
  destruct (EnvironmentClient meta _) as [client | e]; exec.
  2: { exists []. rewrite app_nil_r. repeat split; auto. }
  destruct (Host_ById client _ _) as [[[h|] [e|]] w]; exec;
    try destruct (removed (State h)); exec; rewrite ?read_range; exec;
    rewrite <- ?app_assoc; (eexists; split; [reflexivity |]);
    (split; [right; eexists _, _; reflexivity | done]).
Qed.

(** X3. A read calls the platform at most once, to fetch the host by the
    stored id: it never lists, updates, deactivates or deletes. Without a
    client it leaves the whole state as it was. *)
Theorem read_calls meta st :
  ∃ tr,
    st_log (resourceRancherHostRead removed range_order meta st).2 = st_log st ++ tr
    ∧ (calls tr = [] ∨ ∃ o e, calls tr = [EvById (rd_id (st_d st)) o e])
    ∧ (∀ e, EnvironmentClient meta (rd_environment_id (st_d st)) = inr e →
            (resourceRancherHostRead removed range_order meta st).2 = st).
Proof. apply read_fetches. Qed.

(** The local state after a read. *)
Lemma read_writes meta st :
  let run := resourceRancherHostRead removed range_order meta st in
  (run.1 ≠ Ok tt → st_d run.2 = st_d st)
  ∧ (run.1 = Ok tt →
     st_d run.2 = rd_set_id "" (st_d st)
     ∨ ∃ hj w, ∃ client,
         EnvironmentClient meta (rd_environment_id (st_d st)) = inl client
         ∧ Host_ById client (rd_id (st_d st)) (st_remote st) = (Some hj, None, w)
         ∧ removed (State hj) = false
         ∧ st_d run.2 =
             mkRD (rd_id (st_d st)) (Name hj) (Description hj)
                  (rd_environment_id (st_d st)) (Hostname hj)
                  (stored_labels range_order (rd_labels (st_d st))
                     (without_reserved (Labels hj))).1).
Proof.
  cbv zeta. unfold resourceRancherHostRead. exec.
  destruct (EnvironmentClient meta _) as [client | e] eqn:Henv; exec; [| done].
  destruct (Host_ById client _ _) as [[[h|] [e|]] w] eqn:Hby; exec; try done.
  - destruct (removed (State h)) eqn:Hrm; exec; [split; [done | by left] |].
    rewrite read_range. exec. split; [done |]. intros _. right.
    exists h, w, client. repeat split; try done.
    by rewrite !alter_snoc, lookup_snoc.
  - split; [done | by left].
Qed.

(** X4. A read that does not succeed leaves the local state as it was. A
    read that succeeds either empties the id and changes nothing else, or
    keeps the id and the environment id and takes the name, the
    description and the hostname from a record that the fetch returned
    and that is not removed, and the labels from what [d.Set] stores of
    the labels of this record less the reserved ones. When these are all
    strings or null, the local labels are these labels, null stored as the
    empty string. In any case the local labels hold no reserved key, or
    they are the labels from before the read. *)
Theorem read_local_state meta st :
  let run := resourceRancherHostRead removed range_order meta st in
  (run.1 ≠ Ok tt → st_d run.2 = st_d st)
  ∧ (run.1 = Ok tt →
     st_d run.2 = rd_set_id "" (st_d st)
     ∨ ∃ hj w, ∃ client,
         EnvironmentClient meta (rd_environment_id (st_d st)) = inl client
         ∧ Host_ById client (rd_id (st_d st)) (st_remote st) = (Some hj, None, w)
         ∧ removed (State hj) = false
         ∧ st_d run.2 =
             mkRD (rd_id (st_d st)) (Name hj) (Description hj)
                  (rd_environment_id (st_d st)) (Hostname hj)
                  (stored_labels range_order (rd_labels (st_d st))
                     (without_reserved (Labels hj))).1
         ∧ (storable (without_reserved (Labels hj)) →
            rd_labels (st_d run.2) = as_stored <$> without_reserved (Labels hj))
         ∧ (reserved_free (rd_labels (st_d run.2))
            ∨ rd_labels (st_d run.2) = rd_labels (st_d st))).
Proof.
  cbv zeta. destruct (read_writes meta st) as [Hko Hok]. cbv zeta in Hko, Hok.
  split; [exact Hko |]. intros Hr.
  destruct (Hok Hr) as [Heq | (hj & w & client & Henv & Hby & Hrm & Heq)]; [by left |].
  right. exists hj, w, client. rewrite Heq. cbn [rd_labels].
  repeat split; try done.
  - intros Hs. by rewrite stored_labels_storable.
  - apply stored_labels_reserved_free, roLabels_reserved_free.
Qed.

(** X16. After a read of a host that is there and whose labels, the
    reserved ones apart, are all strings or null, the labels of the local
    state are the labels of the remote record with the four reserved keys
    deleted and null stored as the empty string: no reserved key is bound
    in them, and every other key is bound as in the remote record, a
    string to itself and null to the empty string. *)
Theorem read_surfaces_labels meta client st hj w' :
  EnvironmentClient meta (rd_environment_id (st_d st)) = inl client →
  Host_ById client (rd_id (st_d st)) (st_remote st) = (Some hj, None, w') →
  removed (State hj) = false →
  storable (without_reserved (Labels hj)) →
  let surfaced :=
    rd_labels (st_d (resourceRancherHostRead removed range_order meta st).2) in
  (resourceRancherHostRead removed range_order meta st).1 = Ok tt
  ∧ surfaced = as_stored <$> without_reserved (Labels hj)
  ∧ (∀ k, k ∈ roLabels → surfaced !! k = None)
  ∧ (∀ k, k ∉ roLabels → surfaced !! k = as_stored <$> Labels hj !! k)
  ∧ (∀ k s, k ∉ roLabels → Labels hj !! k = Some (VStr s) →
            surfaced !! k = Some (VStr s))
  ∧ (∀ k, k ∉ roLabels → Labels hj !! k = Some VNil →
          surfaced !! k = Some (VStr "")).
Proof.
  intros Henv Hby Hrm Hs. cbv zeta.
  rewrite (read_present _ _ _ _ _ Henv Hby Hrm). cbn [fst snd st_d rd_labels].
  fold (without_reserved (Labels hj)). rewrite (stored_labels_storable _ _ Hs).
  cbn [fst]. unfold without_reserved.
  split; [done |]. split; [done |].
  split; [| split; [| split]].
  - intros k Hk. rewrite lookup_fmap, roLabels_deleted. by rewrite decide_True.
  - intros k Hk. rewrite lookup_fmap, roLabels_deleted. by rewrite decide_False.
  - intros k s' Hk Hv. rewrite lookup_fmap, roLabels_deleted.
    by rewrite decide_False, Hv.
  - intros k Hk Hv. rewrite lookup_fmap, roLabels_deleted.
    by rewrite decide_False, Hv.
Qed.

(** X5. A second read that fetches the same record as the first, the
    labels of which are all strings or null once the reserved ones are
    left out, succeeds and changes nothing in the local state. *)
Theorem read_twice meta client st hj w w' :
  EnvironmentClient meta (rd_environment_id (st_d st)) = inl client →
  Host_ById client (rd_id (st_d st)) (st_remote st) = (Some hj, None, w) →
  removed (State hj) = false →
  storable (without_reserved (Labels hj)) →
  let st1 := (resourceRancherHostRead removed range_order meta st).2 in
  Host_ById client (rd_id (st_d st)) (st_remote st1) = (Some hj, None, w') →
  (resourceRancherHostRead removed range_order meta st1).1 = Ok tt
  ∧ st_d (resourceRancherHostRead removed range_order meta st1).2 = st_d st1.
Proof.
  intros Henv Hby Hrm Hs. cbv zeta.
  rewrite (read_present _ _ _ _ _ Henv Hby Hrm). cbn [snd st_remote].
  intros Hby'.
  match goal with |- context [resourceRancherHostRead removed range_order meta ?s] =>
    rewrite (read_present meta client s hj w' Henv Hby' Hrm) end.
  cbn [fst snd st_d rd_id rd_environment_id rd_labels].
  fold (without_reserved (Labels hj)).
  by rewrite !(stored_labels_storable _ _ Hs).
Qed.

(** ** What an update does to the platform and to the local state *)

(** The part of an update up to its update call, when the fetch returns a
    record: the request carries the local name and description, and the
    local labels with the reserved labels of the record merged in. *)
Lemma update_request meta client st hj w :
  EnvironmentClient meta (rd_environment_id (st_d st)) = inl client →
  Host_ById client (rd_id (st_d st)) (st_remote st) = (Some hj, None, w) →
  let data := mkHostUpdate (rd_name (st_d st)) (rd_description (st_d st))
                (with_reserved (rd_labels (st_d st)) (Labels hj)) in
  let answer := Update client "host" (Id hj) data w in
  let st1 := mkSt (st_d st) answer.2
               ((st_maps st ++ [with_reserved (rd_labels (st_d st)) (Labels hj)])
                ++ [Labels hj])
               (st_log st ++ [EvById (rd_id (st_d st)) (Some (State hj)) None;
                              EvUpdate "host" (Id hj) data answer.1]) in
  resourceRancherHostUpdate removed range_order meta st =
    match answer.1 with
    | Some e => (Err e, st1)
    | None => resourceRancherHostRead removed range_order meta st1
    end.
Proof.
  intros Henv Hby. cbv zeta.
  unfold resourceRancherHostUpdate. exec. rewrite Henv. exec.
  unfold d_Get_labels, d_Id, map_new. exec. rewrite Hby. exec.
  rewrite update_range by (cbn; rewrite length_app; simpl; lia).
  unfold client_Update, map_load, remote_call, emit. exec.
  rewrite lookup_snoc_l. cbn.
  destruct (Update client _ _ _ w) as [[e|] w2]; exec; by rewrite <- !app_assoc.
Qed.

(** X6. The calls of an update, in their order: a fetch by the stored id;
    then, only when the fetch returned a record and no error, one update
    call of type host; then, only when the update call returned no error,
    at most one more fetch by the stored id, the one of the read. An
    update never lists, deactivates or deletes. *)
Theorem update_calls meta st :
  let id := rd_id (st_d st) in
  ∃ tr,
    st_log (resourceRancherHostUpdate removed range_order meta st).2 = st_log st ++ tr
    ∧ (calls tr = []
       ∨ (∃ o e, calls tr = [EvById id o e] ∧ (o = None ∨ is_Some e))
       ∨ (∃ s hid data e,
            calls tr = [EvById id (Some s) None; EvUpdate "host" hid data (Some e)])
       ∨ (∃ s hid data rest,
            calls tr = EvById id (Some s) None :: EvUpdate "host" hid data None :: rest
            ∧ (rest = [] ∨ ∃ o e, rest = [EvById id o e]))).
Proof.
  cbv zeta.
  destruct (EnvironmentClient meta (rd_environment_id (st_d st)))
    as [client | e] eqn:Henv.
  2: { unfold resourceRancherHostUpdate. exec. rewrite Henv. exec.
       exists []. rewrite app_nil_r. auto. }
  destruct (Host_ById client (rd_id (st_d st)) (st_remote st))
    as [[[h|] [e|]] w] eqn:Hby.
  2: { rewrite (update_request meta client st h w Henv Hby). cbv zeta.
       destruct (Update client _ _ _ w) as [[e|] w2]; cbn [fst snd].
       - eexists. cbn. split; [reflexivity |]. right. right. left.
         eexists _, _, _, _. reflexivity.
       - match goal with |- context [resourceRancherHostRead removed range_order meta ?s] =>
           destruct (read_fetches meta s) as (tr & Hlog & Hc & _) end.
         eexists. rewrite Hlog. cbn. rewrite <- app_assoc. split; [reflexivity |].
         right. right. right. eexists _, _, _, (calls tr).
         split; [reflexivity |]. cbn in Hc. exact Hc. }
  all: unfold resourceRancherHostUpdate; exec; rewrite Henv; exec;
    unfold d_Get_labels, d_Id, map_new; exec; rewrite Hby; exec.
  3: unfold roLabels, for_each; exec.
  all: eexists [_]; (split; [reflexivity |]); right; left;
    eexists _, _; (split; [reflexivity |]); eauto.
Qed.

(** The local state after an update. *)
Lemma update_writes meta st :
  let run := resourceRancherHostUpdate removed range_order meta st in
  (run.1 ≠ Ok tt → st_d run.2 = st_d st)
  ∧ (run.1 = Ok tt →
     rd_environment_id (st_d run.2) = rd_environment_id (st_d st)
     ∧ (st_d run.2 = rd_set_id "" (st_d st)
        ∨ rd_id (st_d run.2) = rd_id (st_d st)
          ∧ (reserved_free (rd_labels (st_d run.2))
             ∨ rd_labels (st_d run.2) = rd_labels (st_d st)))).
Proof.
  cbv zeta.
  destruct (EnvironmentClient meta (rd_environment_id (st_d st)))
    as [client | e] eqn:Henv.
  2: { unfold resourceRancherHostUpdate. exec. by rewrite Henv. }
  destruct (Host_ById client (rd_id (st_d st)) (st_remote st))
    as [[[h|] [e|]] w] eqn:Hby.
  2: { rewrite (update_request meta client st h w Henv Hby). cbv zeta.
       destruct (Update client _ _ _ w) as [[e|] w2]; cbn [fst snd]; [done |].
       match goal with |- context [resourceRancherHostRead removed range_order meta ?s] =>
         pose proof (read_writes meta s) as Hrd; cbv zeta in Hrd;
         destruct (resourceRancherHostRead removed range_order meta s) as [r' st'];
         cbn in Hrd |- *; destruct Hrd as [Hko Hok] end.
       split; [exact Hko |]. intros Hr.
       destruct (Hok Hr) as [-> | (hj & w' & c & _ & _ & _ & ->)].
       - split; [done | by left].
       - split; [done |]. right. split; [done |]. cbn [rd_labels].
         apply stored_labels_reserved_free, roLabels_reserved_free. }
  all: unfold resourceRancherHostUpdate; exec; rewrite Henv; exec;
    unfold d_Get_labels, d_Id, map_new; exec; rewrite Hby; exec;
    try (unfold roLabels, for_each; exec); done.
Qed.

(** X7. An update that does not succeed leaves the local state as it was.
    An update that succeeds keeps the environment id and either has emptied
    the id and changed nothing else, or has kept the id and left the local
    labels without a reserved key, or, when [d.Set] stored nothing of the
    labels of the record, as they were. *)
Theorem update_local_state meta st :
  let run := resourceRancherHostUpdate removed range_order meta st in
  (run.1 ≠ Ok tt → st_d run.2 = st_d st)
  ∧ (run.1 = Ok tt →
     rd_environment_id (st_d run.2) = rd_environment_id (st_d st)
     ∧ (st_d run.2 = rd_set_id "" (st_d st)
        ∨ rd_id (st_d run.2) = rd_id (st_d st)
          ∧ (reserved_free (rd_labels (st_d run.2))
             ∨ rd_labels (st_d run.2) = rd_labels (st_d st)))).
Proof. apply update_writes. Qed.

Lemma with_without_reserved (m : labelmap) :
  (∀ k, k ∈ roLabels → is_Some (m !! k)) →
  with_reserved (without_reserved m) m = m.
Proof.
  intros Hall. apply map_eq. intros k.
  unfold with_reserved. rewrite roLabels_merged. case_decide as Hk.
  - destruct (Hall k Hk) as [v Hv]. unfold index. by rewrite Hv.
  - unfold without_reserved. rewrite roLabels_deleted. by rewrite decide_False.
Qed.

(** X9. An update that follows a read, with nothing changed in between and
    the platform serving the same record, sends this record's own name,
    description and labels back, when the record has all four reserved
    keys and its other labels are strings. *)
Theorem update_after_read_sends_record meta client st hj w w' :
  EnvironmentClient meta (rd_environment_id (st_d st)) = inl client →
  Host_ById client (rd_id (st_d st)) (st_remote st) = (Some hj, None, w) →
  removed (State hj) = false →
  (∀ k, k ∈ roLabels → is_Some (Labels hj !! k)) →
  (∀ k v, k ∉ roLabels → Labels hj !! k = Some v → ∃ s, v = VStr s) →
  let st1 := (resourceRancherHostRead removed range_order meta st).2 in
  Host_ById client (rd_id (st_d st)) (st_remote st1) = (Some hj, None, w') →
  ∃ answer rest,
    st_log (resourceRancherHostUpdate removed range_order meta st1).2
    = st_log st1 ++
      EvById (rd_id (st_d st)) (Some (State hj)) None
      :: EvUpdate "host" (Id hj)
           (mkHostUpdate (Name hj) (Description hj) (Labels hj)) answer
      :: rest.
Proof.
  intros Henv Hby Hrm Hall Hstr. cbv zeta.
  rewrite (read_present _ _ _ _ _ Henv Hby Hrm). cbn [snd st_remote].
  intros Hby'.
  match goal with |- context [resourceRancherHostUpdate removed range_order meta ?s] =>
    rewrite (update_request meta client s hj w' Henv Hby') end.
  cbv zeta. cbn [st_d rd_name rd_description rd_labels rd_id st_log st_maps].
  fold (without_reserved (Labels hj)).
  rewrite stored_labels_strings.
  2: { intros k v. unfold without_reserved. rewrite roLabels_deleted.
       case_decide; [done | by apply Hstr]. }
  cbn [fst]. rewrite (with_without_reserved _ Hall).
  destruct (Update client _ _ _ w') as [[e|] w2]; cbn [fst snd].
  - eexists _, []. cbn. by rewrite <- !app_assoc.
  - match goal with |- context [resourceRancherHostRead removed range_order meta ?s] =>
      destruct (read_log meta s) as [tr ->] end.
    eexists _, tr. cbn. by rewrite <- !app_assoc.
Qed.

(** ** What a delete does to the platform and to the local state *)

Lemma mutations_fetches id ps : mutations (fetches id ps) = [].
Proof. induction ps as [| s ps IH]; [done | exact IH]. Qed.

Lemma mutations_by_id_end conf id r last : by_id_end conf id r last → mutations last = [].
Proof. by destruct 1. Qed.

(** The second half of a delete makes one call that changes the platform,
    the delete call, and writes the local state only to empty the id at
    the end of a successful run. *)
Lemma Delete_remove_effects client id (h : Host mapref) st :
  let run := Delete_remove budget client id (Some h) st in
  ∃ tr,
    st_log run.2 = st_log st ++ tr
    ∧ (∃ err, mutations tr = [EvDelete (Id h) err]
              ∧ (is_Some err → run.1 ≠ Ok tt))
    ∧ (run.1 ≠ Ok tt ∧ st_d run.2 = st_d st
       ∨ run.1 = Ok tt ∧ st_d run.2 = rd_set_id "" (st_d st)).
Proof.
  cbv zeta. unfold Delete_remove, client_Host_Delete, remote_call, emit. exec.
  destruct (Host_Delete client (Id h) (st_remote st)) as [[e|] w]; exec.
  { eexists [_]. split; [done |]. split; [by eexists | by left]. }
  match goal with |- context [WaitForState budget ?c ?s] =>
    destruct (WaitForState_by_id client id c s eq_refl)
      as (qs & last & Hlog & Hd & Hqs & Hend);
    destruct (WaitForState budget c s) as [[[res [e|]]|e|] st3] end;
    cbn in Hlog, Hd, Hend |- *.
  all: eexists; rewrite ?Hlog, ?Hd, <- ?app_assoc; (split; [reflexivity |]).
  all: split;
    [ exists None; cbn; rewrite ?mutations_app, mutations_fetches,
        (mutations_by_id_end _ _ _ _ Hend); split; [done | by intros []]
    | ].
  all: try (by left). by right.
Qed.

Lemma delete_effects meta st :
  let run := resourceRancherHostDelete budget meta st in
  ∃ tr,
    st_log run.2 = st_log st ++ tr
    ∧ (mutations tr = []
       ∨ (∃ hid e, mutations tr = [EvDeactivate hid (Some e)] ∧ run.1 ≠ Ok tt)
       ∨ (∃ hid, mutations tr = [EvDeactivate hid None] ∧ run.1 ≠ Ok tt)
       ∨ (∃ hid err, mutations tr = [EvDeactivate hid None; EvDelete hid err]
                     ∧ (is_Some err → run.1 ≠ Ok tt))
       ∨ (∃ hid err, mutations tr = [EvDelete hid err]
                     ∧ (is_Some err → run.1 ≠ Ok tt)))
    ∧ (mutations tr = [] → run.1 ≠ Ok tt)
    ∧ (run.1 ≠ Ok tt ∧ st_d run.2 = st_d st
       ∨ run.1 = Ok tt ∧ st_d run.2 = rd_set_id "" (st_d st)).
Proof.
  cbv zeta. unfold resourceRancherHostDelete, d_Id. exec.
  destruct (EnvironmentClient meta _) as [client | e]; exec.
  2: { exists []. rewrite app_nil_r. repeat split; auto. }
  destruct (Host_ById client _ _) as [[[h|] [e|]] w]; exec.
  1, 3, 4: eexists [_]; repeat split; auto.
  case_decide as Hs; exec.
  - unfold client_Host_ActionDeactivate, remote_call, emit. exec.
    destruct (Host_ActionDeactivate client (Id h) w) as [[e|] w1]; exec.
    { eexists [_; _]. rewrite <- app_assoc. split; [done |].
      split; [right; left; by eexists _, _ |]. split; [done | by left]. }
    match goal with |- context [WaitForState budget ?c ?s] =>
      destruct (WaitForState_by_id client (rd_id (st_d st)) c s eq_refl)
        as (ps & last & Hlog & Hd & Hps & Hend);
      destruct (WaitForState budget c s) as [[[res [e|]]|e|] st3] end;
      cbn in Hlog, Hd, Hend |- *.
    2: { match goal with |- context [Delete_remove budget client ?i (Some ?h') st3] =>
           pose proof (Delete_remove_effects client i h' st3) as Htr; cbv zeta in Htr;
           destruct (Delete_remove budget client i (Some h') st3) as [r4 st4];
           cbn in Htr |- *;
           destruct Htr as (tr & Hlog' & (err & Hm & Herr) & Hst)
         end.
         eexists. rewrite Hlog', Hlog, <- !app_assoc. split; [reflexivity |].
         assert (mutations
                   ([EvById (rd_id (st_d st)) (Some (State h)) None] ++
                    [EvDeactivate (Id h) None] ++
                    fetches (rd_id (st_d st)) ps ++ last ++ tr)
                 = [EvDeactivate (Id h) None; EvDelete (Id h) err]) as Hmut.
         { rewrite !mutations_app, mutations_fetches,
             (mutations_by_id_end _ _ _ _ Hend), Hm. done. }
         rewrite Hmut. split; [do 3 right; left; by eexists _, _ |].
         split; [done |]. by rewrite Hd in Hst. }
    all: eexists; rewrite Hlog, Hd, <- !app_assoc; (split; [reflexivity |]);
      (split; [right; right; left; exists (Id h); cbn;
               rewrite !mutations_app, mutations_fetches,
                 (mutations_by_id_end _ _ _ _ Hend); by split |]);
      (split; [done | by left]).
  - match goal with |- context [Delete_remove budget client ?i (Some ?h') ?s] =>
      pose proof (Delete_remove_effects client i h' s) as Htr; cbv zeta in Htr;
      destruct (Delete_remove budget client i (Some h') s) as [r4 st4];
      cbn in Htr |- *;
      destruct Htr as (tr & Hlog' & (err & Hm & Herr) & Hst)
    end.
    eexists. rewrite Hlog', <- !app_assoc. split; [reflexivity |].
    rewrite mutations_app, Hm. cbn.
    split; [do 4 right; by eexists _, _ |]. by split.
Qed.

(** X10. The calls of a delete that change the platform are, in their
    order, at most one deactivate call and at most one delete call, for
    one and the same host. A deactivate call that returned an error is
    followed by no delete call, and a delete with a call that returned an
    error, or with no call that changes the platform, does not succeed. A
    delete never updates. *)
Theorem delete_mutations meta st :
  let run := resourceRancherHostDelete budget meta st in
  ∃ tr,
    st_log run.2 = st_log st ++ tr
    ∧ (mutations tr = []
       ∨ (∃ hid e, mutations tr = [EvDeactivate hid (Some e)] ∧ run.1 ≠ Ok tt)
       ∨ (∃ hid, mutations tr = [EvDeactivate hid None] ∧ run.1 ≠ Ok tt)
       ∨ (∃ hid err, mutations tr = [EvDeactivate hid None; EvDelete hid err]
                     ∧ (is_Some err → run.1 ≠ Ok tt))
       ∨ (∃ hid err, mutations tr = [EvDelete hid err]
                     ∧ (is_Some err → run.1 ≠ Ok tt)))
    ∧ (mutations tr = [] → run.1 ≠ Ok tt).
Proof.
  cbv zeta. destruct (delete_effects meta st) as (tr & Hlog & Hm & Hn & _).
  by exists tr.
Qed.

(** X11. A delete that does not succeed leaves the local state as it was; a
    delete that succeeds empties the id and changes nothing else. *)
Theorem delete_local_state meta st :
  let run := resourceRancherHostDelete budget meta st in
  run.1 ≠ Ok tt ∧ st_d run.2 = st_d st
  ∨ run.1 = Ok tt ∧ st_d run.2 = rd_set_id "" (st_d st).
Proof.
  cbv zeta. by destruct (delete_effects meta st) as (tr & _ & _ & _ & Hst).
Qed.

(** ** What a create does *)

(** The host the loop of [findHost] returns is the first of the list with
    the hostname. *)
Lemma findHost_range_split (hostname : string) (data : list (Host mapref))
    (h : Host mapref) :
  findHost_range hostname data = Some h →
  ∃ pre post,
    data = pre ++ h :: post
    ∧ Forall (λ x, Hostname x ≠ hostname) pre
    ∧ Hostname h = hostname.
Proof.
  induction data as [| x data IH]; [done |]. cbn. case_decide as Hx.
  - intros [= <-]. by exists [], data.
  - intros Hf. destruct (IH Hf) as (pre & post & -> & Hpre & Hh).
    exists (x :: pre), post. split; [done |]. split; [by constructor | done].
Qed.

(** One refresh of create: it makes one list call; it panics when the call
    returns no collection, and else reports that the host was not found,
    or returns a host with the id and the state of the first host of the
    list that has the hostname. *)
Lemma findHost_run client (hostname : string) st :
  let run := findHost client hostname st in
  st_log run.2 = st_log st ++ list_calls client 1 (st_remote st)
  ∧ st_d run.2 = st_d st
  ∧ st_remote run.2 = after_lists client 1 (st_remote st)
  ∧ st_maps run.2 = st_maps st ++ list_maps client 1 (st_remote st)
  ∧ (run.1 = Panic
     ∨ run.1 = Ok (None, "not found", None)
     ∨ ∃ h, run.1 = Ok (Some h, State h, None)
            ∧ first_listed client hostname (st_remote st) (Id h) (State h)).
Proof.
  cbv zeta. unfold findHost, client_Host_List, remote_call, emit. exec.
  destruct (Host_List client (st_remote st)) as [[[data|] err] w] eqn:Hl; exec.
  2: { rewrite !app_nil_r. repeat split; auto. }
  match goal with |- context [decode_all ?d ?s] =>
    destruct (decode_all_fields d s) as (data' & -> & Hf) end.
  exec. rewrite app_nil_r.
  destruct (findHost_range hostname data') as [h |] eqn:Hfind; cbn.
  2: { repeat split; auto. }
  repeat split; try done. right. right. exists h. split; [done |].
  apply findHost_range_split in Hfind as (pre' & post' & -> & Hpre' & Hh).
  apply Forall2_app_inv_l in Hf as (pre & rest & Hpre & Hrest & ->).
  apply Forall2_cons_inv_l in Hrest
    as (hw & post & (Hid & _ & _ & Hhn & Hst) & _ & ->).
  exists pre, hw, post, err, w. split; [done |].
  split; [| repeat split; congruence].
  clear -Hpre Hpre'.
  induction Hpre as [| x y l l' (_ & _ & _ & Hxy & _) Hll IH]; [constructor |].
  apply Forall_cons in Hpre' as [Hx Hl]. constructor; [congruence | auto].
Qed.

Lemma listed_state_S client (n : nat) st :
  listed_state client n (listed_state client 1 st) = listed_state client (S n) st.
Proof.
  unfold listed_state. cbn. by rewrite !app_nil_r, <- !app_assoc.
Qed.

(** The poll of create makes list calls only, one after the other on the
    platform, and leaves the local state alone; the host it ends with has
    the id and the state of the first host with the hostname in the answer
    to its last list call, and this state is a target state. *)
Lemma refresh_loop_lists client (hostname : string) conf checks polls tick st :
  Refresh conf = findHost client hostname →
  ∃ n,
    (refresh_loop conf checks polls tick st).2 = listed_state client n st
    ∧ ∀ h, (refresh_loop conf checks polls tick st).1 = Ok (Some h, None) →
        ∃ k, n = S k
             ∧ first_listed client hostname (after_lists client k (st_remote st))
                 (Id h) (State h)
             ∧ State h ∈ Target conf.
Proof.
  intros Href. revert tick st.
  induction polls as [| polls IH]; intros tick st.
  - exists 0. unfold listed_state. cbn. rewrite !app_nil_r.
    split; [by destruct st | done].
  - unfold refresh_loop; fold (@refresh_loop W). rewrite bind_eq, Href.
    pose proof (findHost_run client hostname st) as Hrun. cbv zeta in Hrun.
    destruct (findHost client hostname st) as [r st1]. cbn [fst snd] in Hrun.
    destruct Hrun as (Hlog & Hd & Hw & Hm & Hr).
    assert (st1 = listed_state client 1 st) as ->.
    { unfold listed_state. destruct st1 as [d1 w1 m1 l1]. cbn in Hlog, Hd, Hw, Hm.
      by rewrite Hlog, Hd, Hw, Hm. }
    assert (∀ (res : outcome (option (Host mapref) * option error)),
              (∀ h, res ≠ Ok (Some h, None)) →
              ∃ n,
                (res, listed_state client 1 st).2 = listed_state client n st
                ∧ ∀ h, (res, listed_state client 1 st).1 = Ok (Some h, None) →
                    ∃ k, n = S k
                         ∧ first_listed client hostname
                             (after_lists client k (st_remote st)) (Id h) (State h)
                         ∧ State h ∈ Target conf) as Hstop.
    { intros res Hres. exists 1. split; [done |].
      intros h Hh. by destruct (Hres h). }
    assert (∀ t,
              ∃ n,
                (refresh_loop conf checks polls t (listed_state client 1 st)).2
                  = listed_state client n st
                ∧ ∀ h, (refresh_loop conf checks polls t (listed_state client 1 st)).1
                       = Ok (Some h, None) →
                    ∃ k, n = S k
                         ∧ first_listed client hostname
                             (after_lists client k (st_remote st)) (Id h) (State h)
                         ∧ State h ∈ Target conf) as Hgo.
    { intros t. destruct (IH t (listed_state client 1 st)) as (n & Hst & Hh').
      exists (S n). rewrite Hst, listed_state_S. split; [done |].
      intros h Hh. destruct (Hh' h Hh) as (k & -> & Hfl & Hs).
      exists (S k). by repeat split. }
    destruct Hr as [-> | [-> | (h & -> & Hfl)]]; cbn [fst snd].
    + by apply Hstop.
    + cbn. case_decide; [by apply Hstop |]. case_decide; [by apply Hstop | apply Hgo].
    + cbn. case_decide as Ht; [| case_decide; [apply Hgo | by apply Hstop]].
      exists 1. split; [done |].
      intros h' [= <-]. exists 0. by repeat split.
Qed.

(** What a create does: list calls, one after the other, and then, when
    the last of them held the host in a target state, the write of its id
    and an update. *)
Lemma create_effects meta st :
  let run := resourceRancherHostCreate removed budget range_order meta st in
  match EnvironmentClient meta (rd_environment_id (st_d st)) with
  | inr e => run = (Err e, st)
  | inl client =>
    ∃ n,
      run.1 ≠ Ok tt ∧ run.2 = listed_state client n st
      ∨ ∃ id state,
          first_listed client (rd_hostname (st_d st))
            (after_lists client n (st_remote st)) id state
          ∧ state ∈ ["active"; "disconnected"]
          ∧ run = resourceRancherHostUpdate removed range_order meta
                    (d_SetId id (listed_state client (S n) st)).2
  end.
Proof.
  cbv zeta. unfold resourceRancherHostCreate. exec0.
  destruct (EnvironmentClient meta _) as [client | e]; exec0; [| done].
  unfold WaitForState.
  match goal with |- context [refresh_loop ?c ?checks ?polls 0 st] =>
    destruct (refresh_loop_lists client (rd_hostname (st_d st)) c checks polls 0 st
                eq_refl) as (n & Hst & Hh);
    destruct (refresh_loop c checks polls 0 st) as [[[res [e|]]|e|] st1] end;
    cbn [fst snd] in Hst, Hh |- *; subst st1.
  1, 3, 4: exists n; by left.
  destruct res as [h |]; exec0; [| exists n; by left].
  destruct (Hh h eq_refl) as (k & -> & Hfl & Hs).
  exists k. right. exists (Id h), (State h). by repeat split.
Qed.

(** X12. A create without a client returns the error of
    [EnvironmentClient] and does nothing. With a client it first makes
    list calls only, one after the other. Either it does not succeed, and
    all it has done is these list calls: the local state is as it was. Or
    the last of these list calls held a host with the configured hostname,
    the first such host of that list being active or disconnected: create
    has then set the id to the id of this host and goes on as the update
    run from there, so that its outcome and final state are those of this
    update. *)
Theorem create_run meta st :
  let run := resourceRancherHostCreate removed budget range_order meta st in
  match EnvironmentClient meta (rd_environment_id (st_d st)) with
  | inr e => run = (Err e, st)
  | inl client =>
    ∃ n,
      run.1 ≠ Ok tt
        ∧ run.2 = mkSt (st_d st) (after_lists client n (st_remote st))
                    (st_maps st ++ list_maps client n (st_remote st))
                    (st_log st ++ list_calls client n (st_remote st))
      ∨ ∃ id state,
          first_listed client (rd_hostname (st_d st))
            (after_lists client n (st_remote st)) id state
          ∧ state ∈ ["active"; "disconnected"]
          ∧ run = resourceRancherHostUpdate removed range_order meta
                    (mkSt (rd_set_id id (st_d st))
                       (after_lists client (S n) (st_remote st))
                       (st_maps st ++ list_maps client (S n) (st_remote st))
                       (st_log st ++ list_calls client (S n) (st_remote st)
                          ++ [EvSetId id]))
  end.
Proof.
  cbv zeta. pose proof (create_effects meta st) as Hc. cbv zeta in Hc.
  destruct (EnvironmentClient meta (rd_environment_id (st_d st)))
    as [client | e]; [| exact Hc].
  destruct Hc as [n [Hko | (id & state & Hfl & Hs & Hrun)]]; exists n; [by left |].
  right. exists id, state. split; [exact Hfl |]. split; [exact Hs |].
  rewrite Hrun. unfold d_SetId, listed_state. cbn [snd st_d st_remote st_maps st_log].
  by rewrite <- app_assoc.
Qed.

(** X13. A create that succeeds keeps the environment id; its client has
    answered one of the list calls with a list whose first host with the
    configured hostname is active or disconnected, and either the id is
    empty and nothing else has changed, or the id is the id of this host
    and the local labels hold no reserved key or, when [d.Set] stored
    nothing of the labels of the record, are as they were. A create that
    does not succeed has left the local state as it was, or has changed it
    only by setting the id to the id of such a host. *)
Theorem create_local_state meta st :
  let run := resourceRancherHostCreate removed budget range_order meta st in
  let listed id :=
    ∃ client n state,
      EnvironmentClient meta (rd_environment_id (st_d st)) = inl client
      ∧ first_listed client (rd_hostname (st_d st))
          (after_lists client n (st_remote st)) id state
      ∧ state ∈ ["active"; "disconnected"] in
  (run.1 = Ok tt →
   rd_environment_id (st_d run.2) = rd_environment_id (st_d st)
   ∧ ∃ id, listed id
       ∧ (st_d run.2 = rd_set_id "" (st_d st)
          ∨ rd_id (st_d run.2) = id
            ∧ (reserved_free (rd_labels (st_d run.2))
               ∨ rd_labels (st_d run.2) = rd_labels (st_d st))))
  ∧ (run.1 ≠ Ok tt →
     st_d run.2 = st_d st
     ∨ ∃ id, listed id ∧ st_d run.2 = rd_set_id id (st_d st)).
Proof.
  cbv zeta. pose proof (create_effects meta st) as Hc. cbv zeta in Hc.
  destruct (EnvironmentClient meta (rd_environment_id (st_d st)))
    as [client | e] eqn:Henv.
  2: { rewrite Hc. cbn. split; [done | by left]. }
  destruct Hc as [n [(Hko & Hst) | (id & state & Hfl & Hs & ->)]].
  { rewrite Hst. split; [done | by left]. }
  match goal with |- context [resourceRancherHostUpdate removed range_order meta ?s] =>
    set (st1 := s) end.
  assert (st_d st1 = rd_set_id id (st_d st)) as Hd by done.
  clearbody st1.
  assert (∃ c k s, (inl client : RancherClient + error) = inl c
                   ∧ first_listed c (rd_hostname (st_d st))
                       (after_lists c k (st_remote st)) id s
                   ∧ s ∈ ["active"; "disconnected"]) as Hlisted
    by (by exists client, n, state).
  destruct (update_writes meta st1) as [Hko Hok]. cbv zeta in Hko, Hok.
  split.
  - intros Hr. destruct (Hok Hr) as [He [Heq | [Hid Hlab]]].
    + rewrite He, Hd. split; [done |]. exists id. split; [exact Hlisted |].
      left. by rewrite Heq, Hd.
    + rewrite He, Hd. split; [done |]. exists id. split; [exact Hlisted |].
      right. rewrite Hid, Hd. split; [done |].
      destruct Hlab as [Hfree | Heq]; [by left | right]. by rewrite Heq, Hd.
  - intros Hr. right. exists id. split; [exact Hlisted |]. by rewrite (Hko Hr).
Qed.

(** X14. On a platform whose first list call holds a host with the
    configured hostname that is active or disconnected, whose fetches of
    this host return records without error, the labels of the last of
    which are all strings or null once the reserved ones are left out, and
    whose update call returns no error, a create with room for one refresh
    succeeds: the id is the id of the listed host, and the name, the
    description, the hostname and the labels, less the reserved ones and
    with null stored as the empty string, are those of the record fetched
    last. *)
Theorem create_succeeds meta client st (pre post : list (Host labelmap))
    (h hj hj' : Host labelmap) lerr w0 w1 w2 w3 :
  EnvironmentClient meta (rd_environment_id (st_d st)) = inl client →
  Host_List client (st_remote st) = (Some (pre ++ h :: post), lerr, w0) →
  Forall (λ x, Hostname x ≠ rd_hostname (st_d st)) pre →
  Hostname h = rd_hostname (st_d st) →
  State h ∈ ["active"; "disconnected"] →
  0 < budget (10 * Minute) →
  Host_ById client (Id h) w0 = (Some hj, None, w1) →
  Update client "host" (Id hj)
    (mkHostUpdate (rd_name (st_d st)) (rd_description (st_d st))
       (with_reserved (rd_labels (st_d st)) (Labels hj))) w1 = (None, w2) →
  Host_ById client (Id h) w2 = (Some hj', None, w3) →
  removed (State hj') = false →
  storable (without_reserved (Labels hj')) →
  let run := resourceRancherHostCreate removed budget range_order meta st in
  run.1 = Ok tt
  ∧ st_remote run.2 = w3
  ∧ st_d run.2 =
      mkRD (Id h) (Name hj') (Description hj') (rd_environment_id (st_d st))
           (Hostname hj') (as_stored <$> without_reserved (Labels hj')).
Proof.
  intros Henv Hl Hpre Hh Hs Hb Hby Hupd Hby' Hrm Hst'. cbv zeta.
  unfold resourceRancherHostCreate. exec0. rewrite Henv. exec0.
  destruct (findHost_first client (rd_hostname (st_d st)) st pre post h lerr w0
              Hl Hpre Hh) as (h' & Hr & Hid & _ & _ & Hst & Hd & _ & Hw).
  destruct (findHost client (rd_hostname (st_d st)) st) as [r stf] eqn:Hf.
  cbn in Hr, Hd, Hw. subst r.
  unfold WaitForState.
  destruct (budget (Timeout (Create_stateConf client (rd_hostname (st_d st)))))
    as [| n] eqn:Hn; [cbn in Hn; lia |].
  rewrite (refresh_loop_target _ _ n 0 st h' (State h) stf); [| exact Hf | done].
  exec0. unfold d_SetId. cbn.
  match goal with |- context [resourceRancherHostUpdate removed range_order meta ?s] =>
    rewrite (update_request meta client s hj w1) end.
  2: { cbn. by rewrite Hd. }
  2: { cbn. by rewrite Hid, Hw. }
  cbv zeta. cbn [st_d rd_name rd_description rd_labels rd_id rd_set_id st_log st_maps].
  rewrite Hd, Hupd. cbn [fst snd].
  match goal with |- context [resourceRancherHostRead removed range_order meta ?s] =>
    rewrite (read_present meta client s hj' w3) end.
  - cbn [fst snd st_remote st_d rd_id rd_environment_id rd_labels].
    fold (without_reserved (Labels hj')).
    rewrite (stored_labels_storable _ _ Hst'). cbn [fst]. by rewrite Hid.
  - done.
  - cbn. by rewrite Hid.
  - done.
Qed.

End Proofs.

(** ** Examples *)

(** C1. A code bug. A read of a host one of whose labels is a number
    succeeds, and yet the labels it leaves in the local state are not the
    labels of the remote record less the reserved keys: [d.Set] refuses
    the labels, the read does not look at its error, and the labels of the
    local state stay as they were, a reserved key among them. The order of
    the range over the labels plays no part in it. *)
Theorem read_keeps_reserved_label (order : labelmap → list string) :
  let st := start [(Some (web1_cpus "active"), None)] [] in
  let run := resourceRancherHostRead removed_state order obliging st in
  run.1 = Ok tt
  ∧ st_log run.2
    = [EvById "1h5" (Some "active") None;
       EvSet "description"; EvSet "name"; EvSet "hostname"; EvSet "labels"]
  ∧ (stored_labels order (rd_labels web1_data)
       (without_reserved (Labels (web1_cpus "active")))).2 = Some SetError
  ∧ rd_labels (st_d run.2) = rd_labels web1_data
  ∧ rd_labels (st_d run.2) !! "io.rancher.host.kvm" = Some (VStr "false")
  ∧ ¬ reserved_free (rd_labels (st_d run.2))
  ∧ rd_labels (st_d run.2) ≠ without_reserved (Labels (web1_cpus "active")).
Proof.
  cbv zeta.
  rewrite (read_present removed_state order obliging (scripted None None None)
             (start [(Some (web1_cpus "active"), None)] [])
             (web1_cpus "active") (mkScript [] []) eq_refl eq_refl eq_refl).
  cbn [fst snd st_d st_log rd_labels start app].
  fold (without_reserved (Labels (web1_cpus "active"))).
  assert (without_reserved (Labels (web1_cpus "active")) = {["cpus" := VRaw "4"]})
    as -> by (vm_compute; reflexivity).
  assert (stored_labels order (rd_labels web1_data) {["cpus" := VRaw "4"]}
          = (rd_labels web1_data, Some SetError)) as ->.
  { unfold stored_labels. rewrite decide_False.
    - rewrite written_none; [done |].
      intros k v [_ <-]%lookup_singleton_Some. done.
    - intros Hs. destruct (Hs "cpus" (VRaw "4")) as [s Hv]; [| done].
      by apply lookup_singleton_Some. }
  cbn [fst snd].
  split; [done |]. split; [done |]. split; [done |]. split; [done |].
  split; [vm_compute; reflexivity |]. split.
  - intros Hfree.
    specialize (Hfree "io.rancher.host.kvm").
    assert (rd_labels web1_data !! "io.rancher.host.kvm" = Some (VStr "false"))
      as Hv by (vm_compute; reflexivity).
    rewrite Hfree in Hv; [done |].
    unfold roLabels. rewrite !elem_of_cons. auto.
  - intros Heq. apply (f_equal (λ m : labelmap, m !! "cpus")) in Heq.
    vm_compute in Heq. discriminate.
Qed.

Lemma read_frame_witness :
  removed_state (State (web1 "active")) = false
  ∧ rd_id (st_d (resourceRancherHostRead removed_state key_order obliging
                   (start [seen "active"] [])).2) = "1h5"
  ∧ rd_environment_id (st_d (resourceRancherHostRead removed_state key_order obliging
                               (start [seen "active"] [])).2) = "1a5".
Proof.
  split; [reflexivity |].
  pose proof (read_frame removed_state key_order obliging
                (scripted None None None) (start [seen "active"] [])
                (web1 "active") (mkScript [] []) eq_refl eq_refl eq_refl) as H.
  cbv zeta in H. destruct H as (_ & Hid & Henv & _). by rewrite Hid, Henv.
Defined.

Lemma update_sends_reserved_labels_witness :
  ∃ rest,
    st_log (resourceRancherHostUpdate removed_state key_order obliging
              (start [seen "active"; seen "active"] [])).2
    = [EvById "1h5" (Some "active") None;
       EvUpdate "host" "1h5"
         (mkHostUpdate "web" "front"
            (<["io.rancher.host.agent_image" := VNil]>
             (<["io.rancher.host.docker_version" := VStr "1.12"]>
             (<["io.rancher.host.kvm" := VStr "true"]>
             (<["io.rancher.host.linux_kernel_version" := VNil]>
             (<["role" := VStr "db"]> ∅))))))
         None] ++ rest.
Proof.
  pose proof (update_sends_reserved_labels removed_state key_order obliging
                (scripted None None None) (start [seen "active"; seen "active"] [])
                (web1 "active") (mkScript [seen "active"] []) eq_refl eq_refl) as H.
  cbv zeta in H. destruct H as ((rest & H) & _). exists rest. rewrite H.
  vm_compute. reflexivity.
Defined.

Lemma read_missing_or_removed_witness :
  missing_or_removed removed_state (scripted None None None) (start [seen "removed"] [])
  ∧ succeeds_clearing_identity (resourceRancherHostRead removed_state key_order obliging)
      (start [seen "removed"] []).
Proof.
  assert (missing_or_removed removed_state (scripted None None None)
            (start [seen "removed"] [])) as Hmr by reflexivity.
  split; [exact Hmr |].
  exact (read_missing_or_removed removed_state key_order obliging (scripted None None None)
           (start [seen "removed"] []) eq_refl Hmr).
Defined.

(** C3, as stated, fails for delete: on a host whose state is removed and
    which the platform refuses to deactivate, delete returns a failure and
    keeps the id. *)
Lemma delete_of_removed_host_fails :
  missing_or_removed removed_state (scripted (Some "denied") None None)
    (start [seen "removed"] [])
  ∧ (resourceRancherHostDelete two_hundred refusing (start [seen "removed"] [])).1
    = Err "Error deactivating Host: denied"
  ∧ rd_id (st_d (resourceRancherHostDelete two_hundred refusing
                   (start [seen "removed"] [])).2) = "1h5"
  ∧ ¬ succeeds_clearing_identity (resourceRancherHostDelete two_hundred refusing)
        (start [seen "removed"] []).
Proof.
  split; [reflexivity |]. split; [vm_compute; reflexivity |].
  split; [vm_compute; reflexivity |].
  intros [H _]. vm_compute in H. discriminate.
Qed.


Lemma create_poll_tolerates_not_found_witness :
  not_found_run (findHost (scripted None None None) "web1") 1
    quiet_then_found (findHost (scripted None None None) "web1" quiet_then_found).2
  ∧ (WaitForState two_hundred (Create_stateConf (scripted None None None) "web1")
       quiet_then_found).1
    = Ok (Some (mkHost "1h5" "web" "front" "web1" "active" 0), None).
Proof.
  assert (not_found_run (findHost (scripted None None None) "web1") 1
            quiet_then_found
            (findHost (scripted None None None) "web1" quiet_then_found).2) as Hrun.
  { eapply not_found_run_S; [vm_compute; reflexivity | constructor]. }
  split; [exact Hrun |].
  pose proof (create_poll_tolerates_not_found two_hundred
                (scripted None None None) "web1") as H.
  cbv zeta in H. destruct H as (_ & _ & _ & H).
  destruct (H 1 _ _ Hrun) as [Hok _].
  rewrite (Hok (mkHost "1h5" "web" "front" "web1" "active" 0) "active"
             (findHost (scripted None None None) "web1"
                (findHost (scripted None None None) "web1" quiet_then_found).2).2);
    [reflexivity | lia | vm_compute; lia | vm_compute; reflexivity |].
  apply elem_of_cons. by left.
Defined.

Lemma poll_ends_witness :
  pending_run (Delete_stateConf_removed (scripted None None None) "1h5") 1
    being_removed
    (HostStateRefreshFunc (scripted None None None) "1h5" being_removed).2
  ∧ (WaitForState two_hundred
       (Delete_stateConf_removed (scripted None None None) "1h5") being_removed).1
    = Ok (Some (mkHost "1h5" "web" "front" "web1" "removed" 1), None).
Proof.
  assert (pending_run (Delete_stateConf_removed (scripted None None None) "1h5") 1
            being_removed
            (HostStateRefreshFunc (scripted None None None) "1h5" being_removed).2)
    as Hrun.
  { eapply pending_run_S with (s := "removing");
      [vm_compute; reflexivity | | | constructor].
    - apply elem_of_cons. right. apply elem_of_cons. right. apply elem_of_cons. by left.
    - intros [H | H]%elem_of_cons; [done | by apply elem_of_nil in H]. }
  split; [exact Hrun |].
  destruct (poll_ends removed_state two_hundred key_order obliging (scripted None None None) "1h5")
    as (H & _).
  destruct (H _ 1 _ _ Hrun) as [Hok _].
  rewrite (Hok (mkHost "1h5" "web" "front" "web1" "removed" 1) "removed"
             (HostStateRefreshFunc (scripted None None None) "1h5"
                (HostStateRefreshFunc (scripted None None None) "1h5" being_removed).2).2);
    [reflexivity | vm_compute; reflexivity | | vm_compute; lia].
  apply elem_of_cons. by left.
Defined.

Lemma remote_errors_reported_witness :
  ∃ pre,
    (resourceRancherHostDelete two_hundred refusing (start [seen "active"] [])).1
    = Err (pre +:+ "denied").
Proof.
  destruct (remote_errors_reported removed_state two_hundred key_order refusing)
    as (_ & _ & _ & Hdel & _).
  destruct (Hdel (start [seen "active"] [])) as (tr & Hlog & Hrep).
  apply (Hrep (EvDeactivate "1h5" (Some "denied")) "denied"); [| done | done].
  vm_compute in Hlog. subst tr. apply elem_of_cons. right. apply elem_of_cons. by left.
Defined.

(** C7. A code bug. The refresh of create drops the error of its list
    call: with a first list call that returns an error, the refresh
    reports that the host was not found, with no error, the poll goes on,
    and create succeeds; the error is in no outcome. The refresh of the
    polls by id, next to it, hands the error of its fetch on. *)
Lemma list_error_is_dropped :
  (findHost (scripted None None None) "web1"
     (start [] flaky_listing)).1 = Ok (None, "not found", None)
  ∧ (resourceRancherHostCreate removed_state two_hundred key_order obliging
       (start [seen "active"; seen "active"] flaky_listing)).1 = Ok tt
  ∧ EvList (Some "connection refused")
    ∈ st_log (resourceRancherHostCreate removed_state two_hundred key_order obliging
                (start [seen "active"; seen "active"] flaky_listing)).2
  ∧ (HostStateRefreshFunc (scripted None None None) "1h5"
       (start [(None, Some "connection refused")] [])).1
    = Ok (None, "", Some "connection refused").
Proof.
  split; [vm_compute; reflexivity |]. split; [vm_compute; reflexivity |].
  split; [| vm_compute; reflexivity].
  vm_compute. apply elem_of_cons. by left.
Qed.

Lemma fetch_without_record_witness :
  Host_ById (scripted None None None) "1h5" (mkScript [] []) = (None, None, mkScript [] [])
  ∧ (resourceRancherHostUpdate removed_state key_order obliging (start [] [])).1 = Panic
  ∧ (resourceRancherHostDelete two_hundred obliging (start [] [])).1 = Panic
  ∧ (HostStateRefreshFunc (scripted None None None) "1h5" (start [] [])).1 = Panic.
Proof.
  split; [reflexivity |].
  destruct (fetch_without_record removed_state two_hundred key_order obliging) as [H _].
  destruct (H (scripted None None None) (start [] []) (mkScript [] []) eq_refl eq_refl)
    as (Hu & _ & Hd & _ & Hr).
  by rewrite Hu, Hd.
Defined.

(** ** Examples of the further properties *)

Lemma findHost_first_match_witness :
  Host_List (scripted None None None) (st_remote serving_web2)
    = (Some ([web1 "active"] ++ web2 :: []), None,
       mkScript [(Some web2, None); (Some web2, None); (Some web2, None)] [])
  ∧ ∃ h', (findHost (scripted None None None) "web2" serving_web2).1
          = Ok (Some h', "active", None)
          ∧ Id h' = "1h7".
Proof.
  split; [reflexivity |].
  destruct (findHost_first_match (scripted None None None) "web2" serving_web2
              [web1 "active"] [] web2 None
              (mkScript [(Some web2, None); (Some web2, None); (Some web2, None)] []))
    as (h' & Hr & Hid & _); [reflexivity | | reflexivity |].
  - constructor; [done | constructor].
  - by exists h'.
Defined.

Lemma HostStateRefreshFunc_found_witness :
  ∃ h', (HostStateRefreshFunc (scripted None None None) "1h7" serving_web2).1
        = Ok (Some h', "active", None)
        ∧ Hostname h' = "web2".
Proof.
  destruct (HostStateRefreshFunc_found (scripted None None None) "1h7" serving_web2
              web2 (mkScript [(Some web2, None); (Some web2, None)]
                             [(Some [web1 "active"; web2], None)]) eq_refl)
    as (h' & Hr & _ & _ & Hh & _).
  by exists h'.
Defined.

Lemma read_calls_witness :
  ∃ tr,
    st_log (resourceRancherHostRead removed_state key_order obliging serving_web2).2 = [] ++ tr
    ∧ (calls tr = [] ∨ ∃ o e, calls tr = [EvById "1h7" o e]).
Proof.
  destruct (read_calls removed_state key_order obliging serving_web2) as (tr & Hlog & Hc & _).
  by exists tr.
Defined.

Lemma read_local_state_witness :
  (resourceRancherHostRead removed_state key_order obliging
     (start [(None, Some "unreachable")] [])).1 ≠ Ok tt
  ∧ st_d (resourceRancherHostRead removed_state key_order obliging
            (start [(None, Some "unreachable")] [])).2 = web1_data.
Proof.
  assert ((resourceRancherHostRead removed_state key_order obliging
             (start [(None, Some "unreachable")] [])).1 ≠ Ok tt) as Hko.
  { vm_compute. discriminate. }
  split; [exact Hko |].
  destruct (read_local_state removed_state key_order obliging
              (start [(None, Some "unreachable")] [])) as [H _].
  exact (H Hko).
Defined.

Lemma read_surfaces_labels_witness :
  removed_state (State (web1_null "active")) = false
  ∧ storable (without_reserved (Labels (web1_null "active")))
  ∧ rd_labels (st_d (resourceRancherHostRead removed_state key_order obliging
                       (start [(Some (web1_null "active"), None)] [])).2)
    = <["rack" := VStr ""]> ∅.
Proof.
  assert (storable (without_reserved (Labels (web1_null "active")))) as Hs.
  { apply (bool_decide_unpack _). vm_compute. exact I. }
  split; [reflexivity |]. split; [exact Hs |].
  pose proof (read_surfaces_labels removed_state key_order obliging
                (scripted None None None)
                (start [(Some (web1_null "active"), None)] [])
                (web1_null "active") (mkScript [] []) eq_refl eq_refl eq_refl Hs) as H.
  cbv zeta in H. destruct H as (_ & H & _). rewrite H.
  vm_compute. reflexivity.
Defined.

Lemma read_twice_witness :
  removed_state (State web2) = false
  ∧ storable (without_reserved (Labels web2))
  ∧ st_d (resourceRancherHostRead removed_state key_order obliging
            (resourceRancherHostRead removed_state key_order obliging serving_web2).2).2
    = st_d (resourceRancherHostRead removed_state key_order obliging serving_web2).2.
Proof.
  assert (storable (without_reserved (Labels web2))) as Hs.
  { apply (bool_decide_unpack _). vm_compute. exact I. }
  split; [reflexivity |]. split; [exact Hs |].
  eapply (read_twice removed_state key_order obliging (scripted None None None)
            serving_web2 web2 _ _ eq_refl eq_refl eq_refl Hs).
  reflexivity.
Defined.

Lemma update_calls_witness :
  ∃ tr,
    st_log (resourceRancherHostUpdate removed_state key_order obliging serving_web2).2 = [] ++ tr
    ∧ length (calls tr) ≤ 3.
Proof.
  destruct (update_calls removed_state key_order obliging serving_web2) as (tr & Hlog & Hc).
  exists tr. split; [exact Hlog |].
  destruct Hc as [-> | [(o & e & -> & _) | [(s & hid & data & e & ->)
    | (s & hid & data & rest & -> & [-> | (o & e & ->)])]]]; cbn; lia.
Defined.

Lemma update_local_state_witness :
  (resourceRancherHostUpdate removed_state key_order obliging serving_web2).1 = Ok tt
  ∧ reserved_free
      (rd_labels (st_d (resourceRancherHostUpdate removed_state key_order obliging
                          serving_web2).2)).
Proof.
  assert ((resourceRancherHostUpdate removed_state key_order obliging serving_web2).1
          = Ok tt) as Hok by (vm_compute; reflexivity).
  split; [exact Hok |].
  destruct (update_local_state removed_state key_order obliging serving_web2) as [_ H].
  destruct (H Hok) as [_ [Hgone | [_ [Hfree | Hsame]]]]; [| exact Hfree |].
  - exfalso. apply (f_equal rd_id) in Hgone. vm_compute in Hgone. discriminate.
  - rewrite Hsame. intros k _. apply lookup_empty.
Defined.

Lemma update_after_read_sends_record_witness :
  removed_state (State web2) = false
  ∧ ∃ answer rest,
      st_log (resourceRancherHostUpdate removed_state key_order obliging
                (resourceRancherHostRead removed_state key_order obliging serving_web2).2).2
      = st_log (resourceRancherHostRead removed_state key_order obliging serving_web2).2 ++
        EvById "1h7" (Some "active") None
        :: EvUpdate "host" "1h7" (mkHostUpdate "db" "store" (Labels web2)) answer
        :: rest.
Proof.
  split; [reflexivity |].
  assert (∀ k, k ∈ roLabels → is_Some (Labels web2 !! k)) as Hall.
  { intros k Hk. unfold roLabels in Hk. rewrite !elem_of_cons, elem_of_nil in Hk.
    destruct Hk as [-> | [-> | [-> | [-> | []]]]]; vm_compute; eauto. }
  assert (∀ k v, k ∉ roLabels → Labels web2 !! k = Some v → ∃ s, v = VStr s) as Hstr.
  { intros k v _ Hv. unfold web2 in Hv. cbn [Labels] in Hv.
    repeat (apply lookup_insert_Some in Hv as [[_ <-] | [_ Hv]]; [by eexists |]).
    by rewrite lookup_empty in Hv. }
  eapply (update_after_read_sends_record removed_state key_order obliging
            (scripted None None None) serving_web2 web2 _ _
            eq_refl eq_refl eq_refl Hall Hstr).
  reflexivity.
Defined.

Lemma delete_mutations_witness :
  ∃ tr,
    st_log (resourceRancherHostDelete two_hundred refusing (start [seen "active"] [])).2
    = [] ++ tr
    ∧ length (mutations tr) ≤ 2.
Proof.
  destruct (delete_mutations two_hundred refusing (start [seen "active"] []))
    as (tr & Hlog & Hm & _).
  exists tr. split; [exact Hlog |].
  destruct Hm as [-> | [(hid & e & -> & _) | [(hid & -> & _)
    | [(hid & err & -> & _) | (hid & err & -> & _)]]]]; cbn; lia.
Defined.

Lemma delete_local_state_witness :
  st_d (resourceRancherHostDelete two_hundred refusing (start [seen "active"] [])).2
  = web1_data.
Proof.
  destruct (delete_local_state two_hundred refusing (start [seen "active"] []))
    as [[_ H] | [Hok _]]; [exact H |].
  exfalso. vm_compute in Hok. discriminate.
Defined.

Lemma create_run_witness :
  ∃ n,
    (resourceRancherHostCreate removed_state two_hundred key_order obliging
       serving_web2).1 ≠ Ok tt
    ∨ ∃ id state,
        first_listed (scripted None None None) "web2"
          (after_lists (scripted None None None) n (st_remote serving_web2)) id state
        ∧ state ∈ ["active"; "disconnected"].
Proof.
  pose proof (create_run removed_state two_hundred key_order obliging serving_web2)
    as H.
  hnf in H. destruct H as [n H]. exists n.
  destruct H as [(Hko & _) | (id & state & Hfl & Hs & _)].
  - left. exact Hko.
  - right. exists id, state. split; [exact Hfl | exact Hs].
Defined.

Lemma create_local_state_witness :
  (resourceRancherHostCreate removed_state two_hundred key_order obliging
     serving_web2).1 = Ok tt
  ∧ rd_environment_id
      (st_d (resourceRancherHostCreate removed_state two_hundred key_order obliging
               serving_web2).2) = "1a5".
Proof.
  assert ((resourceRancherHostCreate removed_state two_hundred key_order obliging
             serving_web2).1 = Ok tt) as Hok by (vm_compute; reflexivity).
  split; [exact Hok |].
  destruct (create_local_state removed_state two_hundred key_order obliging
              serving_web2) as [H _].
  destruct (H Hok) as [-> _]. reflexivity.
Defined.

Lemma create_succeeds_witness :
  (0 < two_hundred (10 * Minute))
  ∧ storable (without_reserved (Labels web2))
  ∧ st_d (resourceRancherHostCreate removed_state two_hundred key_order obliging
            serving_web2).2
    = mkRD "1h7" "db" "store" "1a5" "web2" (<["role" := VStr "db"]> ∅).
Proof.
  assert (storable (without_reserved (Labels web2))) as Hs.
  { apply (bool_decide_unpack _). vm_compute. exact I. }
  split; [vm_compute; lia |]. split; [exact Hs |].
  destruct (create_succeeds removed_state two_hundred key_order obliging
              (scripted None None None) serving_web2 [web1 "active"] [] web2
              web2 web2 None
              (mkScript [(Some web2, None); (Some web2, None); (Some web2, None)] [])
              (mkScript [(Some web2, None); (Some web2, None)] [])
              (mkScript [(Some web2, None); (Some web2, None)] [])
              (mkScript [(Some web2, None)] []))
    as (_ & _ & ->); try reflexivity.
  - constructor; [done | constructor].
  - apply elem_of_cons. by left.
  - vm_compute. lia.
  - exact Hs.
Defined.
